(** * Support system front end: ticket pages, API routes and the
      document-tagging cascade

    A shallow embedding of the TypeScript sources of the support system:
    - the admin documents page ([AdminDocumentsPage]): the fixed table
      [courseCategories], the two cascade handlers, the derived list
      [availableCoursesForSelection] and [handleUpload];
    - the ticket detail pages ([TicketDetailPage], [AdminTicketDetailPage]):
      which controls are rendered for which status, and what their
      handlers do;
    - the two Next.js API routes [tickets/[id]/rate] and
      [tickets/[id]/reopen];
    - the admin ticket list ([AdminSupportPage]) and its response counter.

    JavaScript arrays are lists (order and duplicates kept), strings are
    [string], numbers that the code only compares or decrements are [Z].
    React state is passed explicitly: every handler is a function from the
    state the render closed over to the state after the update. *)

From stdpp Require Import base decidable option list numbers strings.
From stdpp Require Import gmap.

Open Scope string_scope.
Open Scope Z_scope.
Open Scope list_scope.

(** ** JavaScript helpers *)

Module Js.

(** Truthiness of a string value: only the empty string is falsy. *)
Definition truthy (s : string) : bool := negb (bool_decide (s = "")).

(** Truthiness of a possibly-[undefined] string. *)
Definition truthy_opt (o : option string) : bool :=
  match o with
  | Some s => truthy s
  | None => false
  end.

(** [xs.includes(x)]. *)
Definition includes (xs : list string) (x : string) : bool :=
  bool_decide (x ∈ xs).

(** [new Set(iterable)]: elements are added one by one, an element
    already present is skipped, and iteration order is insertion order.
    [seen] is the contents of the set so far. *)
Fixpoint setAddAll (seen xs : list string) : list string :=
  match xs with
  | [] => seen
  | x :: rest =>
      if includes seen x then setAddAll seen rest
      else setAddAll (seen ++ [x]) rest
  end.

(** [[...new Set(xs)]]. *)
Definition spreadSet (xs : list string) : list string := setAddAll [] xs.

(** [xs.some(p)]. *)
Definition some (p : string → bool) (xs : list string) : bool := existsb p xs.

(** [xs.flatMap(f)]. *)
Definition flatMap (f : string → list string) (xs : list string) : list string :=
  concat (map f xs).

End Js.

(** ** The admin documents page *)

Module Documents.

(** The constant [courseCategories]; [Object.entries] and [Object.keys]
    enumerate it in this order. *)
Definition courseCategories : list (string * list string) :=
  [ ("Management",
      [ "Product Management with Generative & Agentic AI";
        "Certification Program in Business Analytics with Gen & Agentic AI";
        "Product Management and Agentic AI";
        "Advanced Project Management & Strategic Leadership";
        "Entrepreneurship Launchpad";
        "Certificate Program in Entrepreneurship and Start Up Mastery";
        "Certificate program in Smart Supply Chain Management";
        "Entrepreneurship & Leadership Toolkit Program";
        "Business Analytics" ]);
    ("AI/ML",
      [ "Minor in AI";
        "Artificial Intelligence and Machine Learning";
        "Specialized Program in Artificial Intelligence & Machine Learning with Drone Tech";
        "Credit-Linked program in Artificial Intelligence & Machine Learning" ]);
    ("Data Science",
      [ "Credit-Linked Program in Data Science";
        "Minor in Artificial Intelligence & Data Science";
        "Data Science" ]);
    ("Marketing",
      [ "Digital Marketing with Applied AI";
        "HR Analytics with Gen AI for HR Professionals";
        "Digital Marketing";
        "Digital Marketing & Analytics";
        "Gen AI Product Launchpad" ]);
    ("Software Development",
      [ "Cyber Security and Ethical Hacking with applied AI";
        "New Age Software Engineering Program";
        "Credit-Linked program in CSE & AI";
        "IIT Mandi Cybersecurity";
        "Software development 2.0 with emerging tech";
        "Software Development" ]);
    ("Electronics", [ "Minor in Embedded Systems" ]) ].

(** [Object.keys(courseCategories)]. *)
Definition categoryKeys : list string := map fst courseCategories.

(** Own-property lookup [obj[key]] in a table of entries. *)
Fixpoint lookupEntry (entries : list (string * list string)) (key : string)
  : option (list string) :=
  match entries with
  | [] => None
  | (k, v) :: rest => if bool_decide (k = key) then Some v else lookupEntry rest key
  end.

(** [courseCategories[cat] || []]. An array, even an empty one, is
    truthy, so the default is taken only for a missing key. The lookup is
    the one of own properties: the handler is called from the checkboxes
    of [Object.keys(courseCategories)] and casts its argument to
    [keyof typeof courseCategories]; names the object literal inherits
    are not category names and are not modelled. *)
Definition coursesOf (cat : string) : list string :=
  default [] (lookupEntry courseCategories cat).

(** The [for ... of Object.entries(courseCategories)] loop of
    [handleCourseNameToggle]: the first category whose list includes
    the course, [undefined] when none does. *)
Fixpoint findParent (entries : list (string * list string)) (courseName : string)
  : option string :=
  match entries with
  | [] => None
  | (category, courses) :: rest =>
      if Js.includes courses courseName then Some category
      else findParent rest courseName
  end.

Definition parentCategoryOf (courseName : string) : option string :=
  findParent courseCategories courseName.

(** The part of the component state the handlers read and write. *)
Record PageState := mkPage {
  selectedCategory : string;
  selectedCourseCategories : list string;
  selectedCourseNames : list string;
  error : string;
  uploading : bool
}.

Definition initialPage : PageState := mkPage "" [] [] "" false.

Definition withSelection (s : PageState) (cats names : list string) : PageState :=
  mkPage (selectedCategory s) cats names (error s) (uploading s).

(** [handleCourseCategoryToggle]. *)
Definition handleCourseCategoryToggle (courseCategory : string) (s : PageState)
  : PageState :=
  let coursesInCat := coursesOf courseCategory in
  let isCurrentlySelected := Js.includes (selectedCourseCategories s) courseCategory in
  let cats :=
    if isCurrentlySelected
    then filter (λ c, c ≠ courseCategory) (selectedCourseCategories s)
    else selectedCourseCategories s ++ [courseCategory] in
  let names :=
    if isCurrentlySelected
    then filter (λ name, name ∉ coursesInCat) (selectedCourseNames s)
    else Js.spreadSet (selectedCourseNames s ++ coursesInCat) in
  withSelection s cats names.

(** [handleCourseNameToggle]. The category list changes only on the
    branch that unselects a course. [parent] is a key of the table there,
    so [courseCategories[parentCategory]] is its entry. *)
Definition handleCourseNameToggle (courseName : string) (s : PageState)
  : PageState :=
  let wasSelected := Js.includes (selectedCourseNames s) courseName in
  let newSelectedCourseNames :=
    if wasSelected
    then filter (λ name, name ≠ courseName) (selectedCourseNames s)
    else selectedCourseNames s ++ [courseName] in
  let cats :=
    if wasSelected then
      match parentCategoryOf courseName with
      | Some parent =>
          if Js.truthy parent then
            let coursesInParentCat := coursesOf parent in
            let isAnyOtherCourseSelected :=
              Js.some (λ cn, Js.includes newSelectedCourseNames cn)
                      coursesInParentCat in
            if negb isAnyOtherCourseSelected
            then filter (λ cat, cat ≠ parent) (selectedCourseCategories s)
            else selectedCourseCategories s
          else selectedCourseCategories s
      | None => selectedCourseCategories s
      end
    else selectedCourseCategories s in
  withSelection s cats newSelectedCourseNames.

(** [availableCoursesForSelection], recomputed at every render. *)
Definition availableCoursesForSelection (s : PageState) : list string :=
  Js.flatMap coursesOf (selectedCourseCategories s).

(** The [category] fields of [categoryGuides], the values of the
    top-level category select. *)
Definition guideCategories : list string :=
  [ "program_details_documents"; "curriculum_documents"; "qa_documents" ].

(** What [handleUpload] sends out. *)
Inductive Request :=
| UploadDocument (file : string)
    (categories course_categories course_names : list string)
| ListDocuments.

(** What comes back once the requests of [handleUpload] have settled:
    the upload [fetch] (or reading the error body) throws with
    [err.message]; or its response is not ok and has the [detail] of its
    body; or its response is ok, and the list request that
    [fetchDocuments] then starts succeeds ([listed]) or fails. *)
Inductive UploadReply :=
| Threw (message : string)
| Refused (detail : option string)
| Uploaded (listed : bool).

(** The error [fetchDocuments] leaves: none when the list arrives. *)
Definition listError (listed : bool) : string :=
  if listed then "" else "Error loading documents".

Definition uploadValidationMessage : string :=
  "Please select a document category, at least one course category, and upload a file.".

Definition withError (s : PageState) (e : string) (up : bool) : PageState :=
  mkPage (selectedCategory s) (selectedCourseCategories s)
         (selectedCourseNames s) e up.

(** [handleUpload]. [file] is [fileInputRef.current?.files?.[0]]. The
    result is the state once the handler and the requests it issued, in
    order, have settled. After a successful upload the form is emptied
    and [fetchDocuments] fetches the documents again: it clears the
    shared [error] and sets it again when the list request fails. *)
Definition handleUpload (file : option string) (reply : UploadReply)
    (s : PageState) : PageState * list Request :=
  match file with
  | None => (withError s uploadValidationMessage (uploading s), [])
  | Some f =>
      if negb (Js.truthy (selectedCategory s))
         || bool_decide (length (selectedCourseCategories s) = 0%nat)
      then (withError s uploadValidationMessage (uploading s), [])
      else
        let req := UploadDocument f [selectedCategory s]
                     (selectedCourseCategories s) (selectedCourseNames s) in
        match reply with
        | Uploaded listed =>
            (mkPage "" [] [] (listError listed) false, [req; ListDocuments])
        | Refused detail =>
            let msg := if Js.truthy_opt detail then default "" detail
                       else "Upload failed" in
            (withError s ("Failed to upload document: " +:+ msg) false, [req])
        | Threw msg =>
            (withError s ("Failed to upload document: " +:+ msg) false, [req])
        end
  end.

(** The [disabled] attribute of the submit button. *)
Definition uploadButtonDisabled (s : PageState) : bool :=
  uploading s
  || negb (Js.truthy (selectedCategory s))
  || bool_decide (length (selectedCourseCategories s) = 0%nat).

(** *** What the rendered page lets the admin do

    The category checkboxes are those of [Object.keys(courseCategories)];
    the course checkboxes are rendered only when some category is
    selected, one per entry of [availableCoursesForSelection]; the
    top-level select offers the entries of [categoryGuides]. *)
Inductive Event :=
| PickCategory (value : string)
| ToggleCourseCategory (courseCategory : string)
| ToggleCourseName (courseName : string)
| SubmitUpload (file : option string) (reply : UploadReply).

Definition offered (e : Event) (s : PageState) : bool :=
  match e with
  | PickCategory v => Js.includes guideCategories v
  | ToggleCourseCategory c => Js.includes categoryKeys c
  | ToggleCourseName n =>
      bool_decide (0 < length (selectedCourseCategories s))%nat
      && Js.includes (availableCoursesForSelection s) n
  | SubmitUpload _ _ => true
  end.

Definition dispatch (e : Event) (s : PageState) : PageState :=
  match e with
  | PickCategory v =>
      mkPage v (selectedCourseCategories s) (selectedCourseNames s)
             (error s) (uploading s)
  | ToggleCourseCategory c => handleCourseCategoryToggle c s
  | ToggleCourseName n => handleCourseNameToggle n s
  | SubmitUpload file reply => fst (handleUpload file reply s)
  end.

(** A session: events in order, each one offered by the page it acts on. *)
Fixpoint run (es : list Event) (s : PageState) : option PageState :=
  match es with
  | [] => Some s
  | e :: rest => if offered e s then run rest (dispatch e s) else None
  end.

(** The tagging invariant: every selected course has a parent category,
    the one [handleCourseNameToggle] finds, and it is selected. *)
Definition parentsSelected (s : PageState) : Prop :=
  ∀ name, name ∈ selectedCourseNames s →
    ∃ parent, parentCategoryOf name = Some parent
              ∧ parent ∈ selectedCourseCategories s.

(** The same, as a check that runs. *)
Definition parentsSelectedb (s : PageState) : bool :=
  forallb (λ name,
    match parentCategoryOf name with
    | Some parent => Js.includes (selectedCourseCategories s) parent
    | None => false
    end) (selectedCourseNames s).

(** [name] is the only selected course listed under [p]. *)
Definition lastSelectedOf (p name : string) (s : PageState) : Prop :=
  ∀ other, other ∈ coursesOf p → other ∈ selectedCourseNames s → other = name.

(** No course is listed under two categories: the loop of
    [handleCourseNameToggle] finds, for each listed course, the category
    it is listed under. *)
Definition listedUnderOwnCategory : bool :=
  forallb (λ entry : string * list string,
    forallb (λ name, bool_decide (parentCategoryOf name = Some (fst entry)))
            (snd entry))
    courseCategories.

(** A session used to exercise the statements below: pick a top-level
    category, select two course categories, unselect one course. *)
Definition sampleSession : list Event :=
  [ PickCategory "qa_documents";
    ToggleCourseCategory "AI/ML";
    ToggleCourseCategory "Electronics";
    ToggleCourseName "Minor in AI" ].

Definition sampleState : PageState :=
  mkPage "qa_documents"
    [ "AI/ML"; "Electronics" ]
    [ "Artificial Intelligence and Machine Learning";
      "Specialized Program in Artificial Intelligence & Machine Learning with Drone Tech";
      "Credit-Linked program in Artificial Intelligence & Machine Learning";
      "Minor in Embedded Systems" ]
    "" false.

End Documents.

(** ** Tickets: shared types ([types/index.tsx]) *)

Module Tickets.

(** The [status] union of [TicketDetail] and [Ticket]. *)
Inductive Status :=
| Open
| WorkInProgress
| StudentActionRequired
| AdminActionRequired
| Resolved
| Closed.

#[global] Instance Status_eq_dec : EqDecision Status.
Proof. solve_decision. Defined.

Definition allStatuses : list Status :=
  [ Open; WorkInProgress; StudentActionRequired; AdminActionRequired;
    Resolved; Closed ].

Inductive Role := student | admin | agent.

(** [Message]; the fields the pages read. *)
Record Message := mkMessage {
  msg_id : string;
  ticket_id : string;
  sender_role : Role;
  message : string;
  timestamp : string
}.

(** [TicketDetail]; the fields the pages read. *)
Record TicketDetail := mkTicketDetail {
  id : string;
  status : Status;
  title : string;
  rating : option Z
}.

(** [TicketDetailResponse]. *)
Record TicketDetailResponse := mkDetail {
  ticket : TicketDetail;
  conversations : list Message
}.

(** [Ticket], the list-view summary; the fields the list reads. *)
Record Ticket := mkTicket {
  t_id : string;
  t_status : Status;
  t_title : string;
  t_rating : option Z;
  response_count : Z
}.

End Tickets.

(** ** The API routes [tickets/[id]/rate] and [tickets/[id]/reopen] *)

Module Routes.

(** A JSON value, as [JSON.parse] gives it: an object lists each of its
    properties once. Numbers are kept to the integers. *)
#[local] Unset Elimination Schemes.
Inductive Json :=
| JNull
| JBool (b : bool)
| JNumber (n : Z)
| JString (s : string)
| JArray (items : list Json)
| JObject (fields : list (string * Json)).
#[local] Set Elimination Schemes.

(** [await request.json()]: the body does not parse, or it is a value. *)
Inductive Body :=
| Unparsable
| Parsed (value : Json).

(** [NextResponse.json(payload, { status })]; the status is 200 when
    none is given. The payload is a single key with a string. *)
Record Response := mkResponse {
  code : Z;
  key : string;
  text : string
}.

Fixpoint field (name : string) (fields : list (string * Json)) : option Json :=
  match fields with
  | [] => None
  | (k, v) :: rest => if bool_decide (k = name) then Some v else field name rest
  end.

(** [const { rating } = value]: a [TypeError] on [null] (outer [None]),
    otherwise the property, [undefined] (inner [None]) when absent. *)
Definition destructureRating (value : Json) : option (option Json) :=
  match value with
  | JNull => None
  | JObject fields => Some (field "rating" fields)
  | _ => Some None
  end.

(** Whether the conversion of a parsed value to text, as a template
    literal does it, returns. A primitive always converts. An object
    converts through [Object.prototype.toString] unless it has a
    property of its own named [toString]: no parsed value is callable,
    [valueOf] then gives no primitive either, and the conversion throws
    a [TypeError]. An array converts by joining the conversions of its
    elements, so it throws when one of them does. *)
Fixpoint convertsToText (value : Json) : bool :=
  match value with
  | JArray items => forallb convertsToText items
  | JObject fields =>
      match field "toString" fields with
      | Some _ => false
      | None => true
      end
  | _ => true
  end.

(** [`Rating ticket ${ticketId} with ${rating} stars`]: whether the
    text of the log line can be built. [ticketId] is a string and
    [undefined] converts. *)
Definition logLineBuilds (rating : option Json) : bool :=
  match rating with
  | None => true
  | Some value => convertsToText value
  end.

(** [POST] of [tickets/[id]/rate/route.ts]. After the destructuring the
    [try] block builds the log line and gives the success response; the
    [catch] answers 500 to whatever was thrown before. *)
Definition rate_POST (body : Body) (ticketId : string) : Response :=
  match body with
  | Unparsable => mkResponse 500 "error" "Failed to submit rating"
  | Parsed value =>
      match destructureRating value with
      | None => mkResponse 500 "error" "Failed to submit rating"
      | Some rating =>
          if logLineBuilds rating
          then mkResponse 200 "message" "Rating submitted successfully"
          else mkResponse 500 "error" "Failed to submit rating"
      end
  end.

(** [POST] of [tickets/[id]/reopen/route.ts]: its log line holds the
    ticket id only, a string, and nothing in its [try] block can throw. *)
Definition reopen_POST (ticketId : string) : Response :=
  mkResponse 200 "message" "Ticket reopened successfully".

(** A 2xx answer. *)
Definition ok (r : Response) : bool :=
  bool_decide (200 ≤ code r) && bool_decide (code r < 300).

(** The body [JSON.stringify({ rating })] of the page's rate request. *)
Definition ratingBody (rating : Z) : Body :=
  Parsed (JObject [("rating", JNumber rating)]).

End Routes.

(** ** The ticket detail pages *)

Module DetailPage.
Import Tickets.

(** Component state: the fetched ticket and the highlighted rating. *)
Record DetailState := mkDetailState {
  page_ticket : option TicketDetailResponse;
  selectedRating : option Z
}.

(** Requests the handlers send, and the router refresh. *)
Inductive Effect :=
| PostRate (ticketId : string) (rating : Z)
| PostReopen (ticketId : string)
| PostMessage (ticketId : string) (message : string) (attachments : list string)
| RouterRefresh.

(** The outcome of a [fetch] as the handlers see it. *)
Inductive Reply (A : Type) :=
| Threw
| NotOk
| OkWith (payload : A).
Arguments Threw {A}.
Arguments NotOk {A}.
Arguments OkWith {A} payload.

(** [ratingEmojis]. *)
Definition ratingEmojis : list string :=
  [ "😠"; "😞"; "😐"; "😊"; "😍" ].

(** The [onClick] ratings of the buttons: [index + 1] for each emoji. *)
Definition ratingButtons : list Z :=
  imap (λ index _, Z.of_nat index + 1) ratingEmojis.

(** [ticket.ticket.status === "Resolved" && (...)]: the reopen button
    of the student page. *)
Definition showsReopenButton (st : Status) : bool := bool_decide (st = Resolved).

(** [ticket.ticket.status !== "Resolved" && (...)]: the message form,
    the same test on the student and on the admin page. *)
Definition showsMessageForm (st : Status) : bool := negb (bool_decide (st = Resolved)).

(** [ticket.ticket.status === "Resolved" && (...)]: the rating card. *)
Definition showsRatingSection (st : Status) : bool := bool_decide (st = Resolved).


(** A rating the page lets the student submit for this ticket. *)
Definition ratingOffered (t : TicketDetail) (r : Z) : bool :=
  showsRatingSection (status t) && bool_decide (r ∈ ratingButtons).

(** [handleRating]: the choice is recorded at once, the request is
    sent, and its outcome is only logged. *)
Definition handleRating (ticketId : string) (rating : Z) (s : DetailState)
  : DetailState * list Effect :=
  (mkDetailState (page_ticket s) (Some rating), [PostRate ticketId rating]).

(** [handleReopenTicket]: the request, then a refresh unless the
    request threw. The component state is not written. *)
Definition handleReopenTicket (ticketId : string) (reply : Reply unit)
    (s : DetailState) : DetailState * list Effect :=
  match reply with
  | Threw => (s, [PostReopen ticketId])
  | _ => (s, [PostReopen ticketId; RouterRefresh])
  end.

(** The [onClick] of "Send Message". [message] is the textarea's value
    and [attachments] the chosen file names. *)
Definition sendMessage (ticketId : string) (message : string)
    (attachments : list string) (reply : Reply Message) (s : DetailState)
  : DetailState * list Effect :=
  if Js.truthy message || bool_decide (0 < length attachments)%nat then
    let sent := [PostMessage ticketId message attachments] in
    match reply with
    | OkWith newMessage =>
        let ticket' :=
          match page_ticket s with
          | None => None
          | Some prevTicket =>
              Some (mkDetail (ticket prevTicket)
                             (conversations prevTicket ++ [newMessage]))
          end in
        (mkDetailState ticket' (selectedRating s), sent)
    | _ => (s, sent)
    end
  else (s, []).

End DetailPage.

(** ** The admin ticket list *)

Module SupportList.
Import Tickets.

Inductive Tab := unresolved | resolved.

(** The predicate of [filteredTickets]. *)
Definition inTab (activeTab : Tab) (t : Ticket) : bool :=
  match activeTab with
  | resolved =>
      bool_decide (t_status t = Resolved) || bool_decide (t_status t = Closed)
  | unresolved =>
      negb (bool_decide (t_status t = Resolved))
      && negb (bool_decide (t_status t = Closed))
  end.

Definition filteredTickets (activeTab : Tab) (tickets : list Ticket) : list Ticket :=
  List.filter (inTab activeTab) tickets.






End SupportList.

(** ** Sample tickets, and the specification's permissions in its words *)

Module Samples.
Import Tickets DetailPage.

Definition openTicket : TicketDetail :=
  mkTicketDetail "T-1" Open "Cannot access Unit 3" None.

Definition closedTicket : TicketDetail :=
  mkTicketDetail "T-2" Closed "Cannot access Unit 3" None.

Definition firstMessage : Message :=
  mkMessage "m-1" "T-2" student "Cannot access Unit 3" "2025-01-01T10:00:00".

Definition laterMessage : Message :=
  mkMessage "m-2" "T-2" student "Still not working" "2025-01-02T10:00:00".


Definition closedPage : DetailState :=
  mkDetailState (Some (mkDetail closedTicket [firstMessage])) None.

(** What the specification says about rating: allowed for a Resolved
    ticket and a rating from 1 to 5. *)
Definition ratePermitted (t : TicketDetail) (rating : Z) : Prop :=
  status t = Resolved ∧ 1 ≤ rating ≤ 5.

(** What it says about reopening: allowed for Resolved and Closed. *)
Definition reopenPermitted (t : TicketDetail) : Prop :=
  status t = Resolved ∨ status t = Closed.

(** What it says about messages: refused for Resolved and Closed. *)
Definition messagesRefused (t : TicketDetail) : Prop :=
  status t = Resolved ∨ status t = Closed.

End Samples.

(** ** Text helpers: upper-casing, splitting, slicing

    The strings handled here (status names, role names, e-mail local
    parts) are ASCII; [toUpperCase] maps [a]-[z] to [A]-[Z] and leaves
    every other character as it is, which is what JavaScript does on
    ASCII text. *)

Module Text.
Import Stdlib.Strings.Ascii.

Definition upper (c : ascii) : ascii :=
  let n := nat_of_ascii c in
  if bool_decide (97 ≤ n)%nat && bool_decide (n ≤ 122)%nat
  then ascii_of_nat (n - 32)
  else c.

(** [s.toUpperCase()]. *)
Fixpoint toUpperCase (s : string) : string :=
  match s with
  | EmptyString => EmptyString
  | String c rest => String (upper c) (toUpperCase rest)
  end.




(** [s.endsWith(c)] for a one-character suffix. *)
Fixpoint endsWith (s : string) (x : ascii) : bool :=
  match s with
  | EmptyString => false
  | String c EmptyString => bool_decide (c = x)
  | String _ rest => endsWith rest x
  end.

(** Every character of the text is an ASCII character. *)
Fixpoint isAscii (s : string) : bool :=
  match s with
  | EmptyString => true
  | String c rest => bool_decide (nat_of_ascii c < 128)%nat && isAscii rest
  end.



End Text.

(** ** Status and role presentation ([utils/index.ts], [types/index.tsx]) *)

Module Badges.
Import Tickets.

(** The string literals of the [status] union. *)
Definition statusText (st : Status) : string :=
  match st with
  | Open => "Open"
  | WorkInProgress => "Work in Progress"
  | StudentActionRequired => "Student Action Required"
  | AdminActionRequired => "Admin Action Required"
  | Resolved => "Resolved"
  | Closed => "Closed"
  end.

(** The string literals of [sender_role]. *)
Definition roleText (r : Role) : string :=
  match r with
  | student => "student"
  | admin => "admin"
  | agent => "agent"
  end.

Definition defaultStatusColor : string := "bg-gray-100 text-gray-800".

(** [getStatusColor]: the [switch] on the status string. *)
Definition getStatusColor (status : string) : string :=
  if bool_decide (status = "Resolved") then "bg-green-100 text-green-800"
  else if bool_decide (status = "Closed") then "bg-blue-100 text-blue-800"
  else if bool_decide (status = "Open") then "bg-yellow-100 text-yellow-800"
  else if bool_decide (status = "Work in Progress")
       then "bg-orange-100 text-orange-800"
  else if bool_decide (status = "Student Action Required")
          || bool_decide (status = "Admin Action Required")
          || bool_decide (status = "Action Required")
       then "bg-red-100 text-red-800"
  else defaultStatusColor.

(** The [case] labels of [getStatusColor]. *)
Definition colouredStatuses : list string :=
  [ "Resolved"; "Closed"; "Open"; "Work in Progress";
    "Student Action Required"; "Admin Action Required"; "Action Required" ].

Definition defaultMessageColor : string := "bg-gray-50".

(** [getMessageBackgroundColor]. *)
Definition getMessageBackgroundColor (role : string) : string :=
  if bool_decide (role = "student") then "bg-blue-50"
  else if bool_decide (role = "admin") then "bg-green-50"
  else if bool_decide (role = "agent") then "bg-yellow-50"
  else defaultMessageColor.

(** The badge text of the admin list and the admin detail page:
    [status === "Student Action Required" ? "WORK IN PROGRESS"
     : status.toUpperCase()]. *)
Definition adminBadgeLabel (status : string) : string :=
  if bool_decide (status = "Student Action Required") then "WORK IN PROGRESS"
  else Text.toUpperCase status.

(** The badge text of the student detail page:
    [status === "Admin Action Required" ? "WORK IN PROGRESS"
     : status.toUpperCase()]. *)
Definition studentBadgeLabel (status : string) : string :=
  if bool_decide (status = "Admin Action Required") then "WORK IN PROGRESS"
  else Text.toUpperCase status.

(** A badge as rendered: its colour classes and its text. *)
Definition adminBadge (st : Status) : string * string :=
  (getStatusColor (statusText st), adminBadgeLabel (statusText st)).

Definition studentBadge (st : Status) : string * string :=
  (getStatusColor (statusText st), studentBadgeLabel (statusText st)).

(** Two statuses are the same or are the two given ones, in some order. *)
Definition sameOrPair (a b st1 st2 : Status) : Prop :=
  st1 = st2 ∨ (st1 = a ∧ st2 = b) ∨ (st1 = b ∧ st2 = a).

End Badges.

(** ** The cards of the admin ticket list: rating *)

Module ListCard.
Import Tickets.

(** What [renderStars] returns: the [--] placeholder, or five stars,
    each filled or not. *)
Inductive StarsView :=
| NoRating
| Stars (filled : list bool).

(** [renderStars]. [!rating] holds for [undefined] and for [0]. *)
Definition renderStars (rating : option Z) : StarsView :=
  match rating with
  | None => NoRating
  | Some r =>
      if bool_decide (r = 0) then NoRating
      else Stars (map (λ star, bool_decide (star ≤ r)) [1; 2; 3; 4; 5])
  end.

(** What [{ticket.rating && (...)}] puts on the card: nothing for
    [undefined]; the number itself for [0], which React renders as text;
    the "You rated" block otherwise. *)
Inductive RatingBlock :=
| Nothing
| BareNumber (n : Z)
| YouRated (stars : StarsView).

Definition ratingBlock (t : Ticket) : RatingBlock :=
  match t_rating t with
  | None => Nothing
  | Some r =>
      if bool_decide (r = 0) then BareNumber r
      else YouRated (renderStars (t_rating t))
  end.

(** The number of filled stars for a rating: the rating cut to [0..5]. *)
Definition filledStars (r : Z) : nat := Z.to_nat (Z.min 5 (Z.max 0 r)).

End ListCard.

(** ** The conversation of a detail page: badge and sender names *)

Module Conversation.
Import Stdlib.Strings.Ascii.
Import Tickets.

#[global] Instance Role_eq_dec : EqDecision Role.
Proof. solve_decision. Defined.

(** The condition of the "TICKET RESOLVED" badge under a message:
    [sender_role === "admin" && status === "Resolved"
     && index === conversations.length - 1]. *)
Definition resolvedBadge (t : TicketDetailResponse) (index : nat) (m : Message)
  : bool :=
  bool_decide (sender_role m = admin)
  && bool_decide (status (ticket t) = Resolved)
  && bool_decide (Z.of_nat index = Z.of_nat (length (conversations t)) - 1).

(** The badge flags of the rendered conversation, message by message. *)
Definition resolvedBadges (t : TicketDetailResponse) : list bool :=
  imap (resolvedBadge t) (conversations t).


End Conversation.

(** ** The message editor of the create-ticket page *)

Module Editor.
Import Stdlib.Strings.Ascii.





End Editor.

(** ** The admin detail page: resolving *)

Module AdminDetail.
Import Tickets DetailPage.




End AdminDetail.

(** ** A session on the student detail page *)

Module DetailSession.
Import Tickets DetailPage.

Inductive DetailEvent :=
| Rate (rating : Z)
| Reopen (reply : Reply unit)
| Send (text : string) (attachments : list string) (reply : Reply Message).

Definition step (ticketId : string) (e : DetailEvent) (s : DetailState)
  : DetailState :=
  match e with
  | Rate rating => (handleRating ticketId rating s).1
  | Reopen reply => (handleReopenTicket ticketId reply s).1
  | Send text attachments reply => (sendMessage ticketId text attachments reply s).1
  end.

Definition runDetail (ticketId : string) (es : list DetailEvent) (s : DetailState)
  : DetailState :=
  foldl (λ acc e, step ticketId e acc) s es.

(** The messages on the page, none while no ticket is loaded. *)
Definition shownConversation (s : DetailState) : list Message :=
  match page_ticket s with
  | None => []
  | Some t => conversations t
  end.

End DetailSession.

(** ** The documents page: the tagging a session can reach *)

Module Tagging.
Import Documents.

(** Every selected course-category has at least one of its courses
    selected. *)
Definition categoriesCovered (s : PageState) : Prop :=
  ∀ c, c ∈ selectedCourseCategories s →
    ∃ name, name ∈ selectedCourseNames s ∧ name ∈ coursesOf c.

(** A consistent tagging: the two selections determine each other and
    hold no duplicates, the categories are keys of the table, the
    top-level category is unset or one of the guide's. *)
Definition wellTagged (s : PageState) : Prop :=
  parentsSelected s
  ∧ categoriesCovered s
  ∧ NoDup (selectedCourseCategories s)
  ∧ NoDup (selectedCourseNames s)
  ∧ (∀ c, c ∈ selectedCourseCategories s → c ∈ categoryKeys)
  ∧ selectedCategory s ∈ "" :: guideCategories.

(** Every category of the table lists at least one course. *)
Definition noEmptyCategory : bool :=
  forallb (λ entry : string * list string,
             negb (bool_decide (snd entry = []))) courseCategories.

End Tagging.

(** ** The documents page: the list of uploaded documents *)

Module DocumentList.
Import Documents.

(** [DocumentRecord]. *)
Record DocumentRecord := mkDocument {
  _id : string;
  doc_id : string;
  file_name : string;
  upload_date : string;
  category : option string;
  course_category : option (list string);
  course_names : option (list string)
}.

(** The component state with the list: the form state with its shared
    [error], the fetched documents and the loading flag. *)
Record ListState := mkList {
  form : PageState;
  documents : list DocumentRecord;
  isLoading : bool
}.

(** The outcome of the list request: the call or the parsing throws, the
    response is not ok, or a body arrives whose [documents] property is
    an array ([Some]) or something else ([None]). *)
Inductive ListReply :=
| ListThrew
| ListNotOk
| ListBody (listed : option (list DocumentRecord)).

(** [fetchDocuments], once settled. *)
Definition fetchDocuments (reply : ListReply) (s : ListState) : ListState :=
  match reply with
  | ListBody listed =>
      mkList (withError (form s) "" (uploading (form s))) (default [] listed) false
  | _ =>
      mkList (withError (form s) "Error loading documents" (uploading (form s)))
             (documents s) false
  end.

Inductive DeleteEffect :=
| DeleteDocument (docId : string)
| FetchDocuments.

(** The outcome of the delete request. *)
Inductive DeleteReply :=
| DeleteThrew
| DeleteRefused
| DeleteDone.

(** [handleDelete], once settled. [confirmed] is the answer to
    [window.confirm]; [listReply] is the outcome of the list request
    that follows a successful delete. *)
Definition handleDelete (docId : string) (confirmed : bool)
    (reply : DeleteReply) (listReply : ListReply) (s : ListState)
  : ListState * list DeleteEffect :=
  if negb confirmed then (s, [])
  else
    match reply with
    | DeleteDone =>
        (fetchDocuments listReply s, [DeleteDocument docId; FetchDocuments])
    | _ =>
        (mkList (withError (form s) "Failed to delete document"
                           (uploading (form s)))
                (documents s) false,
         [DeleteDocument docId])
    end.

(** The [category] and [label] fields of [categoryGuides]. *)
Definition categoryGuides : list (string * string) :=
  [ ("program_details_documents", "Program Details");
    ("curriculum_documents", "Curriculum Documents");
    ("qa_documents", "FAQ") ].

(** [categoryGuides.find((g) => g.category === c)?.label]. *)
Fixpoint findLabel (guides : list (string * string)) (c : string) : option string :=
  match guides with
  | [] => None
  | (category, label) :: rest =>
      if bool_decide (category = c) then Some label else findLabel rest c
  end.

(** The category text on a document's line: nothing when the document
    has no (or an empty) category, else
    [find(...)?.label || doc.category]. *)
Definition categoryText (doc : DocumentRecord) : option string :=
  match category doc with
  | None => None
  | Some c =>
      if Js.truthy c then
        Some (if Js.truthy_opt (findLabel categoryGuides c)
              then default "" (findLabel categoryGuides c)
              else c)
      else None
  end.

End DocumentList.

(** ** Signing in and out: the login form, the home page, the layout *)

Module Session.
Import Stdlib.Strings.Ascii.

(** What the pages leave in the browser: [localStorage], a map from
    names to values, and the strings they assign to [document.cookie],
    oldest first. What the browser makes of a cookie string is not part
    of the code and is not modelled. *)
Record Browser := mkBrowser {
  localStorage : gmap string string;
  cookieWrites : list string
}.

(** The fields the login form reads from the parsed answer; each is
    absent or a string. *)
Record LoginData := mkLoginData {
  session_token : option string;
  role : option string;
  email : option string;
  detail : option string;
  message : option string
}.

(** The outcome of the login request: the call or the parsing of its
    body throws, or an answer arrives with its [ok] flag and its parsed
    body, [None] for a JSON [null]. *)
Inductive LoginReply :=
| LoginThrew
| LoginAnswer (ok : bool) (data : option LoginData).

(** The state of [LoginForm] that [handleSubmit] writes. *)
Record FormState := mkForm {
  isLoading : bool;
  error : string
}.

Inductive Navigation :=
| Push (path : string).

(** [localStorage.setItem(key, value)] stores the string form of the
    value; an absent value is stored as the text [undefined]. *)
Definition storageString (value : option string) : string :=
  default "undefined" value.

(** The error of a refused login: [detail], else [message], else the
    fixed text. [data?.x] is [undefined] on a [null] body. *)
Definition refusalMessage (data : option LoginData) : string :=
  if Js.truthy_opt (data ≫= detail) then default "" (data ≫= detail)
  else if Js.truthy_opt (data ≫= message) then default "" (data ≫= message)
  else "Invalid email or password".

(** The string the login form assigns to [document.cookie]:
    [`session_token=${token}; path=/; max-age=${60 * 60 * 24 * 7};
    SameSite=Lax`]. *)
Definition cookieString (token : string) : string :=
  "session_token=" +:+ token +:+ "; path=/; max-age=604800; SameSite=Lax".


(** [handleSubmit] of the login form, once settled. Reading
    [data.session_token] on a [null] body of an ok answer throws and ends
    in the [catch]. *)
Definition handleSubmit (reply : LoginReply) (b : Browser)
  : FormState * Browser * list Navigation :=
  match reply with
  | LoginThrew => (mkForm false "Login failed. Please try again.", b, [])
  | LoginAnswer true None =>
      (mkForm false "Login failed. Please try again.", b, [])
  | LoginAnswer true (Some data) =>
      if Js.truthy_opt (session_token data) then
        let token := default "" (session_token data) in
        let b' :=
          mkBrowser
            (<["userEmail" := storageString (email data)]>
               (<["userRole" := storageString (role data)]>
                  (<["authToken" := token]> (localStorage b))))
            (cookieWrites b ++ [cookieString token]) in
        (mkForm false "", b',
         [Push (if bool_decide (role data = Some "admin") then "/admin"
                else "/unavailable?label=Dashboard")])
      else (mkForm false (refusalMessage (Some data)), b, [])
  | LoginAnswer false data => (mkForm false (refusalMessage data), b, [])
  end.




End Session.

(** ** The mock routes [auth/login] and [tickets/create] *)

Module MockRoutes.
Import Routes.

(** A JSON answer with several string fields. *)
Record Answer := mkAnswer {
  answerCode : Z;
  payload : list (string * string)
}.

(** [mockUsers]: e-mail, password, role. *)
Definition mockUsers : list (string * string * string) :=
  [ ("student@masai.com", "password", "student");
    ("admin@masai.com", "password", "admin");
    ("kinjal@masai.com", "password", "student") ].

(** The e-mails of [mockUsers]. *)
Definition mockEmails : list string :=
  [ "student@masai.com"; "admin@masai.com"; "kinjal@masai.com" ].

(** [const { email, password } = value]: a [TypeError] on [null],
    [undefined] for what is absent or for a value that is no object. *)
Definition property (name : string) (value : Json) : option Json :=
  match value with
  | JObject fields => field name fields
  | _ => None
  end.

(** [u.email === email && u.password === password] against values taken
    from the body: strict equality holds only for the same string. *)
Definition matches (email password : option Json) (u : string * string * string)
  : bool :=
  match email, password with
  | Some (JString e), Some (JString p) =>
      bool_decide (u.1.1 = e) && bool_decide (u.1.2 = p)
  | _, _ => false
  end.

(** [POST] of the login route. *)
Definition login_POST (body : Body) : Answer :=
  match body with
  | Unparsable => mkAnswer 500 [("error", "Internal server error")]
  | Parsed JNull => mkAnswer 500 [("error", "Internal server error")]
  | Parsed value =>
      match List.find (matches (property "email" value) (property "password" value))
                      mockUsers with
      | None => mkAnswer 401 [("error", "Invalid credentials")]
      | Some user =>
          mkAnswer 200 [ ("message", "Login successful");
                         ("role", user.2); ("email", user.1.1) ]
      end
  end.

(** [`TKT-${random.substr(2, 9).toUpperCase()}`], where [random] is
    [Math.random().toString(36)]. *)
Definition ticketIdOf (random : string) : string :=
  "TKT-" +:+ Text.toUpperCase (String.substring 2 9 random).

(** [POST] of the create-ticket route: the body is destructured, the
    ticket is logged, the id is returned. *)
Definition create_POST (random : string) (body : Body) : Answer :=
  match body with
  | Unparsable => mkAnswer 500 [("error", "Failed to create ticket")]
  | Parsed JNull => mkAnswer 500 [("error", "Failed to create ticket")]
  | Parsed _ =>
      mkAnswer 200 [ ("message", "Ticket created successfully");
                     ("ticket_id", ticketIdOf random) ]
  end.

(** Lookup of a field of an answer. *)
Fixpoint answerField (name : string) (fields : list (string * string))
  : option string :=
  match fields with
  | [] => None
  | (k, v) :: rest =>
      if bool_decide (k = name) then Some v else answerField name rest
  end.

(** A character is a lower-case ASCII letter. *)
Definition isLower (c : Stdlib.Strings.Ascii.ascii) : bool :=
  bool_decide (97 ≤ Stdlib.Strings.Ascii.nat_of_ascii c)%nat
  && bool_decide (Stdlib.Strings.Ascii.nat_of_ascii c ≤ 122)%nat.

Fixpoint hasLower (s : string) : bool :=
  match s with
  | EmptyString => false
  | String c rest => isLower c || hasLower rest
  end.

End MockRoutes.

(** ** The create-ticket page *)

Module CreateTicket.
Import DetailPage.

Definition categories : list string :=
  [ "Product Support"; "Leave"; "Attendance/Counselling Support"; "Referral";
    "Evaluation Score"; "Course Query"; "Other Course Query"; "Code Review";
    "Personal Query"; "NBFC/ISA"; "IA Support"; "Missed Evaluation Submission";
    "Revision"; "MAC"; "Withdrawal"; "Late Evaluation Submission"; "Feedback";
    "Placement Support - Placements"; "Offer Stage- Placements";
    "ISA/EMI/NBFC/Glide Related - Placements"; "Session Support - Placement" ].

Definition productTypes : list string :=
  [ "Course Platform"; "OJ"; "Zoom"; "Slack"; "HUKUMU Interview";
    "Concept Explainer (CE)" ].

Definition issueTypes : list string :=
  [ "Access required / Unable to login"; "Query on how to use the product";
    "Interview"; "Links"; "Technical Issues" ].

(** The state of [CreateTicketPage]. *)
Record CreateState := mkCreate {
  category : string;
  title : string;
  message : string;
  productType : string;
  issueType : string;
  isSubmitting : bool
}.

Definition initialCreate : CreateState := mkCreate "" "" "" "" "" false.

(** [showProductFields]. *)
Definition showProductFields (s : CreateState) : bool :=
  bool_decide (category s = "Product Support").

(** The body of the create request. *)
Record Payload := mkPayload {
  p_category : string;
  p_title : string;
  p_message : string;
  product_type : string;
  issue_type : string
}.

Inductive CreateEffect :=
| PostCreate (body : Payload)
| PushSupport.

(** [handleSubmit], once settled: the request with the five state
    values, and a move to [/support] when the answer is ok. *)
Definition handleSubmit (reply : Reply unit) (s : CreateState)
  : CreateState * list CreateEffect :=
  let body := mkPayload (category s) (title s) (message s)
                        (productType s) (issueType s) in
  let s' := mkCreate (category s) (title s) (message s)
                     (productType s) (issueType s) false in
  match reply with
  | OkWith _ => (s', [PostCreate body; PushSupport])
  | _ => (s', [PostCreate body])
  end.

(** What the page lets the student do: pick one of the listed
    categories; pick a product or an issue type while the product fields
    are shown; edit title and message (typing, or a formatting button);
    submit. The [required] attributes of the inputs, which the browser
    checks before it raises the submit event, are not modelled: a
    session here may submit with an empty title or message. *)
Inductive CreateEvent :=
| PickTicketCategory (value : string)
| PickProduct (value : string)
| PickIssue (value : string)
| EditTitle (value : string)
| EditMessage (value : string)
| Submit (reply : Reply unit).

Definition allowed (e : CreateEvent) (s : CreateState) : bool :=
  match e with
  | PickTicketCategory v => Js.includes categories v
  | PickProduct v => showProductFields s && Js.includes productTypes v
  | PickIssue v => showProductFields s && Js.includes issueTypes v
  | EditTitle _ | EditMessage _ | Submit _ => true
  end.

Definition perform (e : CreateEvent) (s : CreateState) : CreateState :=
  match e with
  | PickTicketCategory v =>
      mkCreate v (title s) (message s) (productType s) (issueType s)
               (isSubmitting s)
  | PickProduct v =>
      mkCreate (category s) (title s) (message s) v (issueType s)
               (isSubmitting s)
  | PickIssue v =>
      mkCreate (category s) (title s) (message s) (productType s) v
               (isSubmitting s)
  | EditTitle v =>
      mkCreate (category s) v (message s) (productType s) (issueType s)
               (isSubmitting s)
  | EditMessage v =>
      mkCreate (category s) (title s) v (productType s) (issueType s)
               (isSubmitting s)
  | Submit reply => (handleSubmit reply s).1
  end.

Fixpoint runCreate (es : list CreateEvent) (s : CreateState)
  : option CreateState :=
  match es with
  | [] => Some s
  | e :: rest => if allowed e s then runCreate rest (perform e s) else None
  end.

(** A session in which the product fields were filled in and the
    category then changed. *)
Definition staleSession : list CreateEvent :=
  [ PickTicketCategory "Product Support"; PickProduct "Zoom";
    PickIssue "Links"; EditTitle "Class link"; EditMessage "It does not open.";
    PickTicketCategory "Leave" ].

End CreateTicket.

(** * Properties *)

(** ** Facts about the JavaScript helpers *)

Section JsFacts.
Implicit Types (x y : string) (xs ys seen : list string).

Lemma includes_true xs x : Js.includes xs x = true ↔ x ∈ xs.
Proof. unfold Js.includes. apply bool_decide_eq_true. Qed.

Lemma includes_false xs x : Js.includes xs x = false ↔ x ∉ xs.
Proof. unfold Js.includes. apply bool_decide_eq_false. Qed.

Lemma truthy_true x : Js.truthy x = true ↔ x ≠ "".
Proof.
  unfold Js.truthy. rewrite negb_true_iff. apply bool_decide_eq_false.
Qed.

Lemma some_true (p : string → bool) xs :
  Js.some p xs = true ↔ ∃ x, x ∈ xs ∧ p x = true.
Proof.
  unfold Js.some. rewrite existsb_exists.
  split; intros (x & Hx & Hp); exists x; split; auto;
    by apply list_elem_of_In.
Qed.

Lemma some_false (p : string → bool) xs :
  Js.some p xs = false ↔ ∀ x, x ∈ xs → p x = false.
Proof.
  split.
  - intros Hnone x Hx. destruct (p x) eqn:Hp; [|done].
    assert (Js.some p xs = true) as Hsome by (apply some_true; eauto).
    congruence.
  - intros Hall. destruct (Js.some p xs) eqn:Hsome; [|done].
    apply some_true in Hsome as (x & Hx & Hp).
    rewrite (Hall x Hx) in Hp. discriminate.
Qed.

Lemma elem_of_flatMap (f : string → list string) xs y :
  y ∈ Js.flatMap f xs ↔ ∃ x, x ∈ xs ∧ y ∈ f x.
Proof.
  unfold Js.flatMap. induction xs as [|x xs IH]; simpl.
  - split; [intros H; by apply elem_of_nil in H|].
    intros (x & Hx & _). by apply elem_of_nil in Hx.
  - rewrite elem_of_app, IH. split.
    + intros [Hy | (x' & Hx' & Hy)].
      * exists x. split; [left|done].
      * exists x'. split; [by right|done].
    + intros (x' & Hx' & Hy). apply elem_of_cons in Hx' as [-> | Hx'].
      * by left.
      * right. eauto.
Qed.

Lemma flatMap_snoc (f : string → list string) xs x :
  Js.flatMap f (xs ++ [x]) = Js.flatMap f xs ++ f x.
Proof.
  unfold Js.flatMap. rewrite map_app, concat_app. simpl.
  by rewrite app_nil_r.
Qed.

(** The set built by [setAddAll] holds what was there and what came in. *)
Lemma elem_of_setAddAll xs : ∀ seen y,
  y ∈ Js.setAddAll seen xs ↔ y ∈ seen ∨ y ∈ xs.
Proof.
  induction xs as [|x xs IH]; intros seen y; simpl.
  - rewrite elem_of_nil. tauto.
  - destruct (Js.includes seen x) eqn:Hin; rewrite IH, elem_of_cons.
    + apply includes_true in Hin. split; [tauto|].
      intros [H | [-> | H]]; tauto.
    + rewrite elem_of_app, list_elem_of_singleton. tauto.
Qed.

Lemma NoDup_setAddAll xs : ∀ seen, NoDup seen → NoDup (Js.setAddAll seen xs).
Proof.
  induction xs as [|x xs IH]; intros seen Hnd; simpl; [done|].
  destruct (Js.includes seen x) eqn:Hin; apply IH; [done|].
  apply includes_false in Hin. apply NoDup_app. split_and!; [done| |].
  - intros y Hy Hyx. apply list_elem_of_singleton in Hyx. by subst.
  - apply NoDup_singleton.
Qed.

(** Elements already in the set keep their place; new ones follow. *)
Lemma setAddAll_extends xs : ∀ seen,
  ∃ added, Js.setAddAll seen xs = seen ++ added ∧ ∀ y, y ∈ added → y ∈ xs.
Proof.
  induction xs as [|x xs IH]; intros seen; simpl.
  - exists []. rewrite app_nil_r. split; [done|]. intros y Hy.
    by apply elem_of_nil in Hy.
  - destruct (Js.includes seen x).
    + destruct (IH seen) as (added & -> & Hsub). exists added.
      split; [done|]. intros y Hy. right. auto.
    + destruct (IH (seen ++ [x])) as (added & -> & Hsub).
      exists (x :: added). rewrite <- app_assoc. split; [done|].
      intros y Hy. apply elem_of_cons in Hy as [-> | Hy]; [left|right; auto].
Qed.

(** A run of fresh, pairwise distinct elements is appended as it is. *)
Lemma setAddAll_fresh ys : ∀ seen zs,
  NoDup (seen ++ ys) →
  Js.setAddAll seen (ys ++ zs) = Js.setAddAll (seen ++ ys) zs.
Proof.
  induction ys as [|y ys IH]; intros seen zs Hnd; simpl.
  - by rewrite app_nil_r.
  - assert (Js.includes seen y = false) as ->.
    { apply includes_false. apply NoDup_app in Hnd as (_ & Hdisj & _).
      intros Hy. apply (Hdisj y Hy). left. }
    replace (seen ++ y :: ys) with ((seen ++ [y]) ++ ys) in *
      by (by rewrite <- app_assoc).
    by apply IH.
Qed.

End JsFacts.

(** ** Facts about the table [courseCategories] *)

Section TableFacts.
Import Documents.
Implicit Types (entries : list (string * list string)).

Lemma lookupEntry_sound entries key v :
  lookupEntry entries key = Some v → (key, v) ∈ entries.
Proof.
  induction entries as [|[k w] rest IH]; simpl; [done|].
  case_bool_decide as Hk.
  - intros [= <-]. subst. left.
  - intros H. right. auto.
Qed.

Lemma lookupEntry_complete entries key v :
  NoDup (map fst entries) → (key, v) ∈ entries →
  lookupEntry entries key = Some v.
Proof.
  induction entries as [|[k w] rest IH]; simpl; intros Hnd Hin.
  - by apply elem_of_nil in Hin.
  - apply NoDup_cons in Hnd as [Hk Hnd].
    apply elem_of_cons in Hin as [[= -> ->] | Hin].
    + by rewrite bool_decide_eq_true_2.
    + case_bool_decide as Heq; [|auto]. subst. exfalso. apply Hk.
      change key with (fst (key, v)). by apply (list_elem_of_fmap_2 fst).
Qed.

Lemma findParent_sound entries name parent :
  findParent entries name = Some parent →
  ∃ courses, (parent, courses) ∈ entries ∧ name ∈ courses.
Proof.
  induction entries as [|[k w] rest IH]; simpl; [done|].
  destruct (Js.includes w name) eqn:Hin.
  - intros [= <-]. apply includes_true in Hin. exists w. split; [left|done].
  - intros H. destruct (IH H) as (courses & Hc & Hn).
    exists courses. split; [by right|done].
Qed.

(** The keys are distinct and none is the empty string. *)
Lemma categoryKeys_NoDup : NoDup categoryKeys.
Proof. apply (bool_decide_unpack _). vm_compute. exact I. Qed.

Lemma categoryKeys_truthy key : key ∈ categoryKeys → Js.truthy key = true.
Proof.
  intros Hkey.
  assert (Forall (λ k, Js.truthy k = true) categoryKeys) as Hall.
  { apply (bool_decide_unpack _). vm_compute. exact I. }
  rewrite Forall_forall in Hall. auto.
Qed.

Lemma listedUnderOwnCategory_holds : listedUnderOwnCategory = true.
Proof. vm_compute. reflexivity. Qed.

Lemma coursesOf_parent cat name :
  name ∈ coursesOf cat → parentCategoryOf name = Some cat.
Proof.
  unfold coursesOf. destruct (lookupEntry courseCategories cat) as [cs|] eqn:Hl;
    simpl; [|intros H; by apply elem_of_nil in H].
  intros Hname. apply lookupEntry_sound in Hl.
  pose proof listedUnderOwnCategory_holds as Hall.
  unfold listedUnderOwnCategory in Hall.
  rewrite forallb_forall in Hall.
  apply list_elem_of_In, Hall in Hl.
  rewrite forallb_forall in Hl.
  apply list_elem_of_In, Hl in Hname.
  by apply bool_decide_eq_true in Hname.
Qed.

Lemma parent_is_key name parent :
  parentCategoryOf name = Some parent → parent ∈ categoryKeys.
Proof.
  intros H. apply findParent_sound in H as (cs & Hin & _).
  unfold categoryKeys. change parent with (fst (parent, cs)).
  by apply (list_elem_of_fmap_2 fst).
Qed.

Lemma parent_coursesOf name parent :
  parentCategoryOf name = Some parent → name ∈ coursesOf parent.
Proof.
  intros H. apply findParent_sound in H as (cs & Hin & Hname).
  unfold coursesOf.
  by rewrite (lookupEntry_complete _ _ _ categoryKeys_NoDup Hin).
Qed.

Lemma parent_truthy name parent :
  parentCategoryOf name = Some parent → Js.truthy parent = true.
Proof. intros H. eapply categoryKeys_truthy, parent_is_key, H. Qed.

End TableFacts.

(** ** The category cascade *)

Section Cascade.
Import Documents.
Implicit Types (s : PageState) (c p name : string).

(** The two branches of [handleCourseCategoryToggle]. *)
Lemma category_toggle_off c s :
  c ∈ selectedCourseCategories s →
  handleCourseCategoryToggle c s
  = withSelection s
      (filter (λ x, x ≠ c) (selectedCourseCategories s))
      (filter (λ name, name ∉ coursesOf c) (selectedCourseNames s)).
Proof.
  intros Hc. unfold handleCourseCategoryToggle.
  apply includes_true in Hc. by rewrite Hc.
Qed.

Lemma category_toggle_on c s :
  c ∉ selectedCourseCategories s →
  handleCourseCategoryToggle c s
  = withSelection s
      (selectedCourseCategories s ++ [c])
      (Js.spreadSet (selectedCourseNames s ++ coursesOf c)).
Proof.
  intros Hc. unfold handleCourseCategoryToggle.
  apply includes_false in Hc. by rewrite Hc.
Qed.

(** The branch of [handleCourseNameToggle] that selects a course. *)
Lemma name_toggle_on name s :
  name ∉ selectedCourseNames s →
  handleCourseNameToggle name s
  = withSelection s (selectedCourseCategories s) (selectedCourseNames s ++ [name]).
Proof.
  intros Hn. unfold handleCourseNameToggle.
  apply includes_false in Hn. by rewrite Hn.
Qed.

(** The test [isAnyOtherCourseSelected] of the unselecting branch. *)
Lemma no_other_selected_iff p name s :
  Js.some (λ cn, Js.includes
                   (filter (λ x, x ≠ name) (selectedCourseNames s)) cn)
          (coursesOf p) = false
  ↔ lastSelectedOf p name s.
Proof.
  rewrite some_false. unfold lastSelectedOf.
  split; intros H other Hin.
  - intros Hsel. destruct (decide (other = name)) as [|Hne]; [done|].
    specialize (H other Hin). apply includes_false in H.
    exfalso. apply H. by apply list_elem_of_filter.
  - apply includes_false. intros Hf.
    apply list_elem_of_filter in Hf as [Hne Hsel]. auto.
Qed.

(** The branch of [handleCourseNameToggle] that unselects a course with
    a parent category. *)
Lemma name_toggle_off name p s :
  name ∈ selectedCourseNames s →
  parentCategoryOf name = Some p →
  handleCourseNameToggle name s
  = withSelection s
      (if Js.some (λ cn, Js.includes
                           (filter (λ x, x ≠ name) (selectedCourseNames s)) cn)
                  (coursesOf p)
       then selectedCourseCategories s
       else filter (λ cat, cat ≠ p) (selectedCourseCategories s))
      (filter (λ x, x ≠ name) (selectedCourseNames s)).
Proof.
  intros Hn Hp. unfold handleCourseNameToggle.
  apply includes_true in Hn. rewrite Hn, Hp, (parent_truthy _ _ Hp).
  by destruct (Js.some _ _).
Qed.

Lemma name_toggle_off_orphan name s :
  name ∈ selectedCourseNames s →
  parentCategoryOf name = None →
  handleCourseNameToggle name s
  = withSelection s (selectedCourseCategories s)
      (filter (λ x, x ≠ name) (selectedCourseNames s)).
Proof.
  intros Hn Hp. unfold handleCourseNameToggle.
  apply includes_true in Hn. by rewrite Hn, Hp.
Qed.

(** [parentsSelectedb] decides [parentsSelected]. *)
Lemma parentsSelectedb_spec s : parentsSelectedb s = true ↔ parentsSelected s.
Proof.
  unfold parentsSelectedb, parentsSelected. rewrite forallb_forall. split.
  - intros H name Hname. apply list_elem_of_In, H in Hname.
    destruct (parentCategoryOf name) as [p|]; [|done].
    exists p. split; [done|]. by apply includes_true.
  - intros H name Hname. apply list_elem_of_In, H in Hname as (p & -> & Hp).
    by apply includes_true.
Qed.

(** Each handler keeps the invariant. *)
Lemma category_toggle_keeps_parents c s :
  parentsSelected s → parentsSelected (handleCourseCategoryToggle c s).
Proof.
  intros Hinv name.
  destruct (decide (c ∈ selectedCourseCategories s)) as [Hc|Hc].
  - rewrite (category_toggle_off _ _ Hc). simpl. intros Hname.
    apply list_elem_of_filter in Hname as [Hout Hname].
    destruct (Hinv name Hname) as (p & Hp & Hsel). exists p. split; [done|].
    apply list_elem_of_filter. split; [|done].
    intros ->. apply Hout. by apply parent_coursesOf.
  - rewrite (category_toggle_on _ _ Hc). simpl. intros Hname.
    apply elem_of_setAddAll in Hname as [Hname | Hname];
      [by apply elem_of_nil in Hname|].
    apply elem_of_app in Hname as [Hname | Hname].
    + destruct (Hinv name Hname) as (p & Hp & Hsel). exists p.
      split; [done|]. apply elem_of_app. by left.
    + exists c. split; [by apply coursesOf_parent|].
      apply elem_of_app. right. left.
Qed.

Lemma name_toggle_keeps_parents name s :
  parentsSelected s →
  name ∈ availableCoursesForSelection s →
  parentsSelected (handleCourseNameToggle name s).
Proof.
  intros Hinv Havail other.
  destruct (decide (name ∈ selectedCourseNames s)) as [Hn|Hn].
  - destruct (Hinv name Hn) as (p & Hp & _).
    rewrite (name_toggle_off _ _ _ Hn Hp). simpl. intros Hother.
    pose proof Hother as Hkept.
    apply list_elem_of_filter in Hother as [Hne Hother].
    destruct (Hinv other Hother) as (q & Hq & Hsel). exists q. split; [done|].
    destruct (Js.some _ _) eqn:Hsome; [done|].
    apply list_elem_of_filter. split; [|done]. intros ->.
    rewrite some_false in Hsome.
    specialize (Hsome other (parent_coursesOf _ _ Hq)).
    apply includes_false in Hsome. by apply Hsome.
  - rewrite (name_toggle_on _ _ Hn). simpl. intros Hother.
    apply elem_of_app in Hother as [Hother | Hother]; [by apply Hinv|].
    apply list_elem_of_singleton in Hother as ->.
    apply elem_of_flatMap in Havail as (cat & Hcat & Hname).
    exists cat. split; [by apply coursesOf_parent|done].
Qed.

Lemma upload_selection file reply s :
  let s' := (handleUpload file reply s).1 in
  (selectedCourseCategories s' = selectedCourseCategories s
   ∧ selectedCourseNames s' = selectedCourseNames s)
  ∨ (selectedCourseCategories s' = [] ∧ selectedCourseNames s' = []).
Proof.
  unfold handleUpload. destruct file as [f|]; [|by left].
  destruct (_ || _); [by left|].
  destruct reply as [msg | detail | listed]; simpl; auto.
Qed.

Lemma event_keeps_parents e s :
  parentsSelected s → offered e s = true → parentsSelected (dispatch e s).
Proof.
  intros Hinv Hoff. destruct e as [v | c | name | file reply]; simpl in *.
  - exact Hinv.
  - by apply category_toggle_keeps_parents.
  - apply andb_true_iff in Hoff as [_ Havail].
    apply name_toggle_keeps_parents; [done|]. by apply includes_true.
  - intros name.
    destruct (upload_selection file reply s) as [[Hc Hn] | [_ Hn]];
      simpl in *; rewrite Hn.
    + rewrite Hc. apply Hinv.
    + intros Hname. by apply elem_of_nil in Hname.
Qed.

Lemma run_keeps_parents es : ∀ s s',
  parentsSelected s → run es s = Some s' → parentsSelected s'.
Proof.
  induction es as [|e es IH]; simpl; intros s s' Hinv Hrun.
  - by injection Hrun as <-.
  - destruct (offered e s) eqn:Hoff; [|done].
    eapply IH; [|exact Hrun]. by apply event_keeps_parents.
Qed.

Lemma initial_parents : parentsSelected initialPage.
Proof. intros name Hname. by apply elem_of_nil in Hname. Qed.

(** No course is selected twice, in any state a session reaches. *)
Lemma event_keeps_NoDup e s :
  NoDup (selectedCourseNames s) → NoDup (selectedCourseNames (dispatch e s)).
Proof.
  intros Hnd. destruct e as [v | c | name | file reply]; cbn [dispatch].
  - exact Hnd.
  - destruct (decide (c ∈ selectedCourseCategories s)) as [Hc|Hc].
    + rewrite (category_toggle_off _ _ Hc). simpl. by apply NoDup_filter.
    + rewrite (category_toggle_on _ _ Hc). simpl.
      apply NoDup_setAddAll, NoDup_nil_2.
  - unfold handleCourseNameToggle. cbn [selectedCourseNames withSelection].
    destruct (Js.includes (selectedCourseNames s) name) eqn:Hin.
    + by apply NoDup_filter.
    + apply includes_false in Hin. apply NoDup_app. split_and!; [done| |].
      * intros x Hx Hxn. apply list_elem_of_singleton in Hxn. by subst.
      * apply NoDup_singleton.
  - destruct (upload_selection file reply s) as [[_ Hn] | [_ Hn]];
      simpl in Hn; rewrite Hn; [done|]. apply NoDup_nil_2.
Qed.

Lemma run_keeps_NoDup es : ∀ s s',
  NoDup (selectedCourseNames s) → run es s = Some s' →
  NoDup (selectedCourseNames s').
Proof.
  induction es as [|e es IH]; simpl; intros s s' Hnd Hrun.
  - by injection Hrun as <-.
  - destruct (offered e s); [|done].
    eapply IH; [|exact Hrun]. by apply event_keeps_NoDup.
Qed.

(** Unselected category, invariant: none of its courses is selected. *)
Lemma unselected_category_has_no_course c s :
  parentsSelected s → c ∉ selectedCourseCategories s →
  ∀ name, name ∈ selectedCourseNames s → name ∉ coursesOf c.
Proof.
  intros Hinv Hc name Hname Hin.
  destruct (Hinv name Hname) as (p & Hp & Hsel).
  rewrite (coursesOf_parent _ _ Hin) in Hp. injection Hp as <-. auto.
Qed.

Lemma filter_keeps_all (P : string → Prop) `{∀ x, Decision (P x)}
    (l : list string) :
  (∀ x, x ∈ l → P x) → filter P l = l.
Proof.
  induction l as [|x l IH]; intros Hall; [done|].
  rewrite filter_cons_True by (apply Hall; left).
  f_equal. apply IH. intros y Hy. apply Hall. by right.
Qed.

Lemma filter_drops_all (P : string → Prop) `{∀ x, Decision (P x)}
    (l : list string) :
  (∀ x, x ∈ l → ¬ P x) → filter P l = [].
Proof.
  induction l as [|x l IH]; intros Hall; [done|].
  rewrite filter_cons_False by (apply Hall; left).
  apply IH. intros y Hy. apply Hall. by right.
Qed.

End Cascade.

(** ** Claims about the cascade *)

Section CascadeClaims.
Import Documents.
Implicit Types (s : PageState) (c p name : string).

Lemma sampleSession_runs : run sampleSession initialPage = Some sampleState.
Proof. vm_compute. reflexivity. Qed.

(** C3. In every state that a session on the documents page reaches,
    each selected course-name has a parent course-category and that
    category is selected. Both cascade handlers keep this invariant:
    the category toggle, for a category of the table, from any state
    that has it; the course toggle for the courses the page renders a
    checkbox for, those of [availableCoursesForSelection]. *)
Theorem parents_selected_invariant :
  (∀ es s, run es initialPage = Some s → parentsSelected s)
  ∧ (∀ c s, c ∈ categoryKeys → parentsSelected s →
            parentsSelected (handleCourseCategoryToggle c s))
  ∧ (∀ name s, parentsSelected s →
               name ∈ availableCoursesForSelection s →
               parentsSelected (handleCourseNameToggle name s)).
Proof.
  split_and!.
  - intros es s Hrun. exact (run_keeps_parents es _ _ initial_parents Hrun).
  - intros c s _. apply category_toggle_keeps_parents.
  - intros name s. apply name_toggle_keeps_parents.
Qed.

Lemma parents_selected_invariant_witness :
  run sampleSession initialPage = Some sampleState
  ∧ parentsSelected sampleState
  ∧ "AI/ML" ∈ categoryKeys
  ∧ parentsSelected (handleCourseCategoryToggle "AI/ML" sampleState)
  ∧ "Minor in AI" ∈ availableCoursesForSelection sampleState
  ∧ parentsSelected (handleCourseNameToggle "Minor in AI" sampleState).
Proof.
  assert (run sampleSession initialPage = Some sampleState) as Hrun
    by (vm_compute; reflexivity).
  assert ("Minor in AI" ∈ availableCoursesForSelection sampleState) as Havail
    by (apply includes_true; vm_compute; reflexivity).
  assert ("AI/ML" ∈ categoryKeys) as Hkey
    by (apply includes_true; vm_compute; reflexivity).
  destruct parents_selected_invariant as (Hreach & Hcat & Hname).
  pose proof (Hreach sampleSession sampleState Hrun) as Hinv.
  split_and!; [exact Hrun | exact Hinv | exact Hkey | | exact Havail | ].
  - exact (Hcat "AI/ML" sampleState Hkey Hinv).
  - exact (Hname "Minor in AI" sampleState Hinv Havail).
Defined.

(** C4. Newly selecting a course-category of the table selects it and
    adds all of its course-names to the selected course-names (the ones
    selected before stay); newly unselecting it unselects it and removes all of
    its course-names (and no others). "AI/ML" has 4 courses; selecting
    it when no category is selected makes [availableCoursesForSelection]
    of length 4 with all 4 courses selected, and in general appends
    those 4 courses to the available ones. *)
Theorem category_toggle_cascades_down :
  (∀ c s, c ∈ categoryKeys → c ∉ selectedCourseCategories s →
     let s' := handleCourseCategoryToggle c s in
     c ∈ selectedCourseCategories s'
     ∧ ∀ name, name ∈ selectedCourseNames s'
               ↔ name ∈ selectedCourseNames s ∨ name ∈ coursesOf c)
  ∧ (∀ c s, c ∈ categoryKeys → c ∈ selectedCourseCategories s →
     let s' := handleCourseCategoryToggle c s in
     (c ∉ selectedCourseCategories s')
     ∧ ∀ name, name ∈ selectedCourseNames s'
               ↔ name ∈ selectedCourseNames s ∧ name ∉ coursesOf c)
  ∧ length (coursesOf "AI/ML") = 4%nat
  ∧ (∀ s, selectedCourseCategories s = [] →
     let s' := handleCourseCategoryToggle "AI/ML" s in
     length (availableCoursesForSelection s') = 4%nat
     ∧ ∀ name, name ∈ coursesOf "AI/ML" → name ∈ selectedCourseNames s')
  ∧ (∀ s, "AI/ML" ∉ selectedCourseCategories s →
     availableCoursesForSelection (handleCourseCategoryToggle "AI/ML" s)
     = availableCoursesForSelection s ++ coursesOf "AI/ML").
Proof.
  assert (∀ c s, c ∉ selectedCourseCategories s →
     ∀ name, name ∈ selectedCourseNames (handleCourseCategoryToggle c s)
             ↔ name ∈ selectedCourseNames s ∨ name ∈ coursesOf c) as Hon.
  { intros c s Hc name. rewrite (category_toggle_on _ _ Hc).
    cbn [selectedCourseNames withSelection]. unfold Js.spreadSet.
    rewrite elem_of_setAddAll, elem_of_nil, elem_of_app. tauto. }
  split_and!.
  - intros c s _ Hc. split; [|by apply Hon].
    rewrite (category_toggle_on _ _ Hc).
    cbn [selectedCourseCategories withSelection].
    apply elem_of_app. right. left.
  - intros c s _ Hc. rewrite (category_toggle_off _ _ Hc).
    cbn [selectedCourseCategories selectedCourseNames withSelection]. split.
    + intros Hin. by apply list_elem_of_filter in Hin as [Hne _].
    + intros name. rewrite list_elem_of_filter. tauto.
  - vm_compute. reflexivity.
  - intros s Hnone.
    assert ("AI/ML" ∉ selectedCourseCategories s) as Hc
      by (rewrite Hnone; apply not_elem_of_nil).
    split.
    + rewrite (category_toggle_on _ _ Hc). unfold availableCoursesForSelection.
      cbn [selectedCourseCategories withSelection]. rewrite Hnone.
      vm_compute. reflexivity.
    + intros name Hname. apply Hon; [done|]. by right.
  - intros s Hc. rewrite (category_toggle_on _ _ Hc).
    unfold availableCoursesForSelection.
    cbn [selectedCourseCategories withSelection]. apply flatMap_snoc.
Qed.

Lemma category_toggle_cascades_down_witness :
  "AI/ML" ∈ categoryKeys
  ∧ ("AI/ML" ∉ selectedCourseCategories initialPage)
  ∧ "AI/ML" ∈ selectedCourseCategories sampleState
  ∧ selectedCourseCategories initialPage = []
  ∧ (let s' := handleCourseCategoryToggle "AI/ML" initialPage in
     "AI/ML" ∈ selectedCourseCategories s'
     ∧ (∀ name, name ∈ selectedCourseNames s'
                ↔ name ∈ selectedCourseNames initialPage
                  ∨ name ∈ coursesOf "AI/ML")
     ∧ length (availableCoursesForSelection s') = 4%nat
     ∧ (∀ name, name ∈ coursesOf "AI/ML" → name ∈ selectedCourseNames s')
     ∧ availableCoursesForSelection s'
       = availableCoursesForSelection initialPage ++ coursesOf "AI/ML")
  ∧ (let s' := handleCourseCategoryToggle "AI/ML" sampleState in
     ("AI/ML" ∉ selectedCourseCategories s')
     ∧ ∀ name, name ∈ selectedCourseNames s'
               ↔ name ∈ selectedCourseNames sampleState
                 ∧ name ∉ coursesOf "AI/ML").
Proof.
  assert ("AI/ML" ∉ selectedCourseCategories initialPage) as Hout
    by apply not_elem_of_nil.
  assert ("AI/ML" ∈ selectedCourseCategories sampleState) as Hin by left.
  assert ("AI/ML" ∈ categoryKeys) as Hkey
    by (apply includes_true; vm_compute; reflexivity).
  destruct category_toggle_cascades_down as (Hon & Hoff & _ & Hfour & Havail).
  split_and!; [exact Hkey | exact Hout | exact Hin | reflexivity | | ].
  - pose proof (Hon "AI/ML" initialPage Hkey Hout) as [H1 H2].
    pose proof (Hfour initialPage eq_refl) as [H3 H4].
    pose proof (Havail initialPage Hout) as H5.
    cbv zeta. split_and!; assumption.
  - exact (Hoff "AI/ML" sampleState Hkey Hin).
Defined.

(** C5. Unselecting a selected course-name removes it from the selected
    course-names. Its parent category is unselected exactly when no other
    selected course is listed under that category; otherwise the selected
    course-categories are unchanged. Categories other than the parent are
    never touched, and a course listed under no category leaves them all
    as they are. *)
Theorem course_unselect_cascades_up s name :
  name ∈ selectedCourseNames s →
  let s' := handleCourseNameToggle name s in
  selectedCourseNames s' = filter (λ x, x ≠ name) (selectedCourseNames s)
  ∧ match parentCategoryOf name with
    | Some p =>
        (lastSelectedOf p name s →
           selectedCourseCategories s'
           = filter (λ cat, cat ≠ p) (selectedCourseCategories s))
        ∧ (¬ lastSelectedOf p name s →
             selectedCourseCategories s' = selectedCourseCategories s)
        ∧ (p ∈ selectedCourseCategories s →
             (p ∉ selectedCourseCategories s' ↔ lastSelectedOf p name s))
        ∧ (∀ q, q ≠ p →
             (q ∈ selectedCourseCategories s' ↔ q ∈ selectedCourseCategories s))
    | None => selectedCourseCategories s' = selectedCourseCategories s
    end.
Proof.
  intros Hname. cbv zeta.
  destruct (parentCategoryOf name) as [p|] eqn:Hp;
    [|by rewrite (name_toggle_off_orphan _ _ Hname Hp)].
  rewrite (name_toggle_off _ _ _ Hname Hp).
  cbn [selectedCourseNames selectedCourseCategories withSelection].
  pose proof (no_other_selected_iff p name s) as Hlast.
  destruct (Js.some _ _) eqn:Hsome.
  - assert (¬ lastSelectedOf p name s) as Hnot
      by (intros H; apply Hlast in H; discriminate).
    split_and!; [done | tauto | done | | done].
    intros Hsel. split; [intros Hout; by destruct Hout | tauto].
  - assert (lastSelectedOf p name s) as Hyes by (by apply Hlast).
    split_and!; [done | done | tauto | |].
    + intros Hsel. split; [done|]. intros _ Hin.
      by apply list_elem_of_filter in Hin as [Hne _].
    + intros q Hq. rewrite list_elem_of_filter. tauto.
Qed.

(** After the sample session "Minor in Embedded Systems" is the only
    selected course of "Electronics"; three courses of "AI/ML" remain. *)
Lemma course_unselect_cascades_up_witness :
  "Minor in Embedded Systems" ∈ selectedCourseNames sampleState
  ∧ parentCategoryOf "Minor in Embedded Systems" = Some "Electronics"
  ∧ lastSelectedOf "Electronics" "Minor in Embedded Systems" sampleState
  ∧ selectedCourseCategories
      (handleCourseNameToggle "Minor in Embedded Systems" sampleState)
    = [ "AI/ML" ].
Proof.
  assert ("Minor in Embedded Systems" ∈ selectedCourseNames sampleState)
    as Hsel by (apply includes_true; vm_compute; reflexivity).
  assert (parentCategoryOf "Minor in Embedded Systems" = Some "Electronics")
    as Hp by (vm_compute; reflexivity).
  assert (lastSelectedOf "Electronics" "Minor in Embedded Systems" sampleState)
    as Hlast.
  { intros other Hother _. change (coursesOf "Electronics")
      with ["Minor in Embedded Systems"] in Hother.
    by apply list_elem_of_singleton in Hother. }
  split_and!; [exact Hsel | exact Hp | exact Hlast |].
  pose proof (course_unselect_cascades_up sampleState
                "Minor in Embedded Systems" Hsel) as (_ & Hparent).
  rewrite Hp in Hparent. destruct Hparent as (Hdrop & _).
  rewrite (Hdrop Hlast). vm_compute. reflexivity.
Defined.

(** C6. Selecting a course-name that is not yet selected appends it to
    the selected course-names and changes nothing else: the selected
    course-categories and the top-level category stay as they are,
    whether or not the course's parent category is among them. *)
Theorem course_select_leaves_categories s name :
  name ∉ selectedCourseNames s →
  let s' := handleCourseNameToggle name s in
  selectedCourseCategories s' = selectedCourseCategories s
  ∧ selectedCourseNames s' = selectedCourseNames s ++ [name]
  ∧ selectedCategory s' = selectedCategory s
  ∧ error s' = error s
  ∧ uploading s' = uploading s.
Proof.
  intros Hname. cbv zeta. by rewrite (name_toggle_on _ _ Hname).
Qed.

Lemma course_select_leaves_categories_witness :
  ("Minor in AI" ∉ selectedCourseNames sampleState)
  ∧ selectedCourseCategories (handleCourseNameToggle "Minor in AI" sampleState)
    = [ "AI/ML"; "Electronics" ].
Proof.
  assert ("Minor in AI" ∉ selectedCourseNames sampleState) as Hout
    by (apply includes_false; vm_compute; reflexivity).
  split; [exact Hout|].
  pose proof (course_select_leaves_categories sampleState "Minor in AI" Hout)
    as (Hcats & _).
  exact Hcats.
Defined.

(** Toggling an unselected category twice, on a state with the
    invariant. *)
Lemma category_toggle_twice c s :
  parentsSelected s → c ∉ selectedCourseCategories s →
  let s2 := handleCourseCategoryToggle c (handleCourseCategoryToggle c s) in
  selectedCourseCategories s2 = selectedCourseCategories s
  ∧ (∀ name, name ∈ selectedCourseNames s2 ↔ name ∈ selectedCourseNames s)
  ∧ (NoDup (selectedCourseNames s) → s2 = s).
Proof.
  intros Hinv Hc. cbv zeta.
  pose proof (unselected_category_has_no_course c s Hinv Hc) as Hfree.
  rewrite (category_toggle_on _ _ Hc).
  rewrite category_toggle_off
    by (cbn [selectedCourseCategories withSelection];
        apply elem_of_app; right; left).
  cbn [selectedCourseCategories selectedCourseNames withSelection].
  assert (filter (λ x, x ≠ c) (selectedCourseCategories s ++ [c])
          = selectedCourseCategories s) as Hcats.
  { rewrite filter_app, filter_keeps_all by (intros x Hx ->; auto).
    rewrite filter_cons_False by (intros H; by apply H).
    rewrite filter_nil. apply app_nil_r. }
  split_and!.
  - exact Hcats.
  - intros name. unfold Js.spreadSet.
    rewrite list_elem_of_filter, elem_of_setAddAll, elem_of_nil, elem_of_app.
    split; [tauto|]. intros Hname. pose proof (Hfree name Hname). tauto.
  - intros Hnd. unfold Js.spreadSet.
    rewrite (setAddAll_fresh (selectedCourseNames s) [] (coursesOf c)) by done.
    destruct (setAddAll_extends (coursesOf c) ([] ++ selectedCourseNames s))
      as (added & -> & Hadded).
    cbn [app]. rewrite Hcats.
    rewrite filter_app, filter_keeps_all by exact Hfree.
    rewrite filter_drops_all by (intros x Hx Hn; apply Hn; auto).
    rewrite app_nil_r. by destruct s.
Qed.

(** C10. On a state that has the parent-category invariant and in which
    a category of the table is not selected, none of its courses is
    selected, and toggling the category twice brings the selected
    course-categories back to the same list and the selected
    course-names back to the same set; when no course is selected twice,
    as in every state a session reaches, the whole state is back. *)
Theorem category_toggle_round_trip :
  (∀ c s, c ∈ categoryKeys →
     parentsSelected s → c ∉ selectedCourseCategories s →
     let s2 := handleCourseCategoryToggle c (handleCourseCategoryToggle c s) in
     (∀ name, name ∈ selectedCourseNames s → name ∉ coursesOf c)
     ∧ selectedCourseCategories s2 = selectedCourseCategories s
     ∧ (∀ name, name ∈ selectedCourseNames s2 ↔ name ∈ selectedCourseNames s)
     ∧ (NoDup (selectedCourseNames s) → selectedCourseNames s2 = selectedCourseNames s))
  ∧ (∀ es c s, c ∈ categoryKeys →
     run es initialPage = Some s → c ∉ selectedCourseCategories s →
     handleCourseCategoryToggle c (handleCourseCategoryToggle c s) = s).
Proof.
  split.
  - intros c s _ Hinv Hc. cbv zeta.
    destruct (category_toggle_twice c s Hinv Hc) as (Hcats & Hnames & Hall).
    split_and!; [by apply unselected_category_has_no_course | done | done |].
    intros Hnd. by rewrite (Hall Hnd).
  - intros es c s _ Hrun Hc.
    apply (category_toggle_twice c s); [|done|].
    + exact (run_keeps_parents es _ _ initial_parents Hrun).
    + apply (run_keeps_NoDup es initialPage); [apply NoDup_nil_2|done].
Qed.

Lemma category_toggle_round_trip_witness :
  "Marketing" ∈ categoryKeys
  ∧ parentsSelected sampleState
  ∧ ("Marketing" ∉ selectedCourseCategories sampleState)
  ∧ run sampleSession initialPage = Some sampleState
  ∧ selectedCourseNames
      (handleCourseCategoryToggle "Marketing"
         (handleCourseCategoryToggle "Marketing" sampleState))
    = selectedCourseNames sampleState
  ∧ handleCourseCategoryToggle "Marketing"
      (handleCourseCategoryToggle "Marketing" sampleState)
    = sampleState.
Proof.
  assert (parentsSelected sampleState) as Hinv
    by (apply parentsSelectedb_spec; vm_compute; reflexivity).
  assert ("Marketing" ∉ selectedCourseCategories sampleState) as Hout
    by (apply includes_false; vm_compute; reflexivity).
  assert (run sampleSession initialPage = Some sampleState) as Hrun
    by (vm_compute; reflexivity).
  assert (NoDup (selectedCourseNames sampleState)) as Hnd
    by (apply (bool_decide_unpack _); vm_compute; exact I).
  assert ("Marketing" ∈ categoryKeys) as Hkey
    by (apply includes_true; vm_compute; reflexivity).
  destruct category_toggle_round_trip as (Hstate & Hreach).
  split_and!; [exact Hkey | exact Hinv | exact Hout | exact Hrun | | ].
  - destruct (Hstate "Marketing" sampleState Hkey Hinv Hout)
      as (_ & _ & _ & Hlist).
    exact (Hlist Hnd).
  - exact (Hreach sampleSession "Marketing" sampleState Hkey Hrun Hout).
Defined.

End CascadeClaims.

(** ** Claims about the upload form *)

Section UploadClaims.
Import Documents.

(** C8. [handleUpload] sends the upload request only when a top-level
    category is chosen and at least one course-category is selected
    (and a file is there); the request then carries exactly that one
    top-level category. When the top-level category is missing or no
    course-category is selected, no request is sent, the validation
    message is put in [error], the selection is left as it was, and the
    submit button is disabled. *)
Theorem upload_needs_category_and_course_categories file reply s :
  let s' := (handleUpload file reply s).1 in
  let sent := (handleUpload file reply s).2 in
  (sent ≠ [] →
     selectedCategory s ≠ ""
     ∧ selectedCourseCategories s ≠ []
     ∧ ∃ f, file = Some f
            ∧ head sent
              = Some (UploadDocument f [selectedCategory s]
                        (selectedCourseCategories s) (selectedCourseNames s)))
  ∧ (selectedCategory s = "" ∨ selectedCourseCategories s = [] →
     sent = []
     ∧ error s' = uploadValidationMessage
     ∧ selectedCategory s' = selectedCategory s
     ∧ selectedCourseCategories s' = selectedCourseCategories s
     ∧ selectedCourseNames s' = selectedCourseNames s
     ∧ uploadButtonDisabled s = true).
Proof.
  cbv zeta.
  pose proof (truthy_true (selectedCategory s)) as Htop.
  assert (bool_decide (length (selectedCourseCategories s) = 0%nat) = true
          ↔ selectedCourseCategories s = []) as Hlen.
  { rewrite bool_decide_eq_true. apply length_zero_iff_nil. }
  unfold handleUpload, uploadButtonDisabled.
  destruct (Js.truthy (selectedCategory s));
    destruct (bool_decide (length (selectedCourseCategories s) = 0%nat));
    destruct file as [f|]; cbn [negb orb fst snd withError error
      selectedCategory selectedCourseCategories selectedCourseNames].
  all: try (split; [intros Hsent; by destruct Hsent|]).
  all: try (intros Hbad; split_and!; try done;
            first [ by destruct (uploading s)
                  | exfalso; destruct Hbad as [Hbad|Hbad];
                    [ exact (proj1 Htop eq_refl Hbad)
                    | apply Hlen in Hbad; discriminate ] ]).
  split.
  - intros _.
    split_and!; [by apply Htop | intros H; apply Hlen in H; discriminate |].
    exists f. split; [done|]. by destruct reply as [msg | detail | listed].
  - intros [H|H]; exfalso;
      [exact (proj1 Htop eq_refl H) | apply Hlen in H; discriminate].
Qed.

Lemma upload_needs_category_and_course_categories_witness :
  (handleUpload (Some "faq.pdf") (Uploaded true) sampleState).2 ≠ []
  ∧ selectedCategory sampleState ≠ ""
  ∧ selectedCourseCategories sampleState ≠ []
  ∧ selectedCourseCategories initialPage = []
  ∧ (handleUpload (Some "faq.pdf") (Uploaded true) initialPage).2 = []
  ∧ error (handleUpload (Some "faq.pdf") (Uploaded true) initialPage).1
    = uploadValidationMessage.
Proof.
  assert ((handleUpload (Some "faq.pdf") (Uploaded true) sampleState).2 ≠ [])
    as Hsent by (vm_compute; discriminate).
  destruct (upload_needs_category_and_course_categories
              (Some "faq.pdf") (Uploaded true) sampleState)
    as (Hgo & _).
  destruct (Hgo Hsent) as (Htop & Hcats & _).
  destruct (upload_needs_category_and_course_categories
              (Some "faq.pdf") (Uploaded true) initialPage)
    as (_ & Hstop).
  destruct (Hstop (or_intror eq_refl)) as (Hnone & Herr & _).
  split_and!; [exact Hsent | exact Htop | exact Hcats | reflexivity
              | exact Hnone | exact Herr].
Defined.

End UploadClaims.

(** ** Claims about tickets *)

Section TicketClaims.
Import Tickets Routes DetailPage SupportList Samples.

Lemma ratingButtons_eq : ratingButtons = [1; 2; 3; 4; 5].
Proof. reflexivity. Qed.

Lemma elem_of_ratingButtons r : r ∈ ratingButtons ↔ 1 ≤ r ≤ 5.
Proof.
  rewrite ratingButtons_eq. rewrite !elem_of_cons, elem_of_nil. lia.
Qed.

Lemma forallb_false {A} (f : A → bool) (l : list A) :
  forallb f l = false ↔ ∃ x, x ∈ l ∧ f x = false.
Proof.
  induction l as [|a l IH]; cbn.
  - split; [done | intros (x & Hin & _); by apply elem_of_nil in Hin].
  - rewrite andb_false_iff, IH. split.
    + intros [Ha | (x & Hin & Hx)]; [exists a | exists x];
        (split; [|done]); [left | by right].
    + intros (x & Hin & Hx). apply elem_of_cons in Hin as [-> | Hin];
        [by left | right; by exists x].
Qed.

(** C1, as the code has it. The rate route answers success for every
    ticket id and every numeric rating, whatever the ticket's status. A
    request succeeds exactly when its body parses to something other
    than [null] and the rating it holds (if any) can be written into
    the route's log line; it fails with status 500 otherwise. The only
    ratings that cannot be written are an object with a property of its
    own named [toString] and an array that holds such a value. On the
    ticket page the rating card is rendered exactly for a Resolved
    ticket and its buttons submit exactly the ratings 1 to 5;
    [handleRating] records the rating and sends it without a check of
    its own. *)
Theorem rate_route_accepts_any_rating :
  (∀ (t : TicketDetail) rating,
     rate_POST (ratingBody rating) (id t)
     = mkResponse 200 "message" "Rating submitted successfully"
     ∧ ok (rate_POST (ratingBody rating) (id t)) = true)
  ∧ (∀ ticketId value,
       ok (rate_POST (Parsed value) ticketId) = true
       ↔ ∃ rating, destructureRating value = Some rating
                   ∧ logLineBuilds rating = true)
  ∧ (∀ ticketId value,
       ok (rate_POST (Parsed value) ticketId) = false
       → rate_POST (Parsed value) ticketId
         = mkResponse 500 "error" "Failed to submit rating")
  ∧ (∀ value, destructureRating value = None ↔ value = JNull)
  ∧ (∀ rating, logLineBuilds rating = false
       ↔ ∃ value, rating = Some value ∧ convertsToText value = false)
  ∧ (∀ value, convertsToText value = false
       ↔ (∃ fields, value = JObject fields
                    ∧ is_Some (field "toString" fields))
         ∨ (∃ items item, value = JArray items ∧ item ∈ items
                          ∧ convertsToText item = false))
  ∧ (∀ ticketId,
       rate_POST Unparsable ticketId
       = mkResponse 500 "error" "Failed to submit rating")
  ∧ (∀ t rating, ratingOffered t rating = true ↔ ratePermitted t rating)
  ∧ (∀ ticketId rating s,
       handleRating ticketId rating s
       = (mkDetailState (page_ticket s) (Some rating), [PostRate ticketId rating])).
Proof.
  split_and!; try done.
  - intros ticketId value. unfold rate_POST.
    destruct (destructureRating value) as [rating|]; [|split; [done|]].
    + destruct (logLineBuilds rating) eqn:Hlog.
      * split; [intros _; by exists rating | done].
      * split; [done | intros (r & [= <-] & Hr); congruence].
    + by intros (r & ? & _).
  - intros ticketId value. unfold rate_POST.
    destruct (destructureRating value) as [rating|]; [|done].
    by destruct (logLineBuilds rating).
  - intros value. destruct value; cbn; split; done.
  - intros [value|]; cbn.
    + split; [intros H; by exists value | by intros (v & [= <-] & ?)].
    + split; [done | by intros (v & ? & _)].
  - intros value. destruct value as [| b | n | str | items | fields]; cbn;
      try (split; [done | intros [(? & ? & _) | (? & ? & ? & _)]; done]).
    + rewrite forallb_false. split.
      * intros (item & Hin & Hitem). right. by exists items, item.
      * intros [(? & ? & _) | (? & item & [= <-] & Hin & Hitem)];
          [done | by exists item].
    + destruct (field "toString" fields) as [v|] eqn:Hfield; split; try done.
      * intros _. left. exists fields. by rewrite Hfield.
      * intros [(? & [= <-] & Hsome) | (? & ? & ? & _)]; [|done].
        rewrite Hfield in Hsome. by destruct Hsome.
  - intros t rating. unfold ratingOffered, showsRatingSection, ratePermitted.
    rewrite andb_true_iff, !bool_decide_eq_true.
    by rewrite elem_of_ratingButtons.
Qed.

(** A rating that has a [toString] property of its own: building the
    log line throws, and the route answers 500. *)
Lemma rate_with_unwritable_rating_fails :
  rate_POST (Parsed (JObject [("rating", JObject [("toString", JNumber 1)])]))
            "T-1"
  = mkResponse 500 "error" "Failed to submit rating"
  ∧ rate_POST (Parsed (JObject [("rating", JArray [JNumber 5; JObject []])]))
              "T-1"
    = mkResponse 200 "message" "Rating submitted successfully".
Proof. split; reflexivity. Qed.

(** An Open ticket rated 9: the route answers success. *)
Lemma rate_open_ticket_with_nine_succeeds :
  ok (rate_POST (ratingBody 9) (id openTicket)) = true
  ∧ ¬ ratePermitted openTicket 9
  ∧ ¬ (ok (rate_POST (ratingBody 9) (id openTicket)) = true
       ↔ ratePermitted openTicket 9).
Proof.
  assert (¬ ratePermitted openTicket 9) as Hno
    by (intros [Hst _]; discriminate).
  split_and!; [reflexivity | exact Hno |].
  intros [Hyes _]. apply Hno, Hyes. reflexivity.
Qed.

(** C2, as the code has it. Both detail pages render the message form
    exactly when the ticket's status is not Resolved, so a Resolved
    ticket offers no way to post and every other status, Closed
    included, does. A non-empty message (or one with attachments) is
    sent; when the backend answers with the stored message it is
    appended at the end of the conversation, and when the request fails
    or is refused the page state is unchanged. *)
Theorem message_form_hidden_only_when_resolved :
  (∀ st, showsMessageForm st = true ↔ st ≠ Resolved)
  ∧ List.filter showsMessageForm allStatuses
    = [ Open; WorkInProgress; StudentActionRequired; AdminActionRequired;
        Closed ]
  ∧ (∀ ticketId text attachments newMessage t rating,
       Js.truthy text || bool_decide (0 < length attachments)%nat = true →
       sendMessage ticketId text attachments (OkWith newMessage)
                   (mkDetailState (Some t) rating)
       = (mkDetailState (Some (mkDetail (ticket t) (conversations t ++ [newMessage])))
                 rating,
          [PostMessage ticketId text attachments]))
  ∧ (∀ ticketId text attachments s,
       (sendMessage ticketId text attachments Threw s).1 = s
       ∧ (sendMessage ticketId text attachments NotOk s).1 = s).
Proof.
  split_and!; try done.
  - intros st. unfold showsMessageForm.
    rewrite negb_true_iff. apply bool_decide_eq_false.
  - intros ticketId text attachments newMessage t rating Hsome.
    unfold sendMessage. by rewrite Hsome.
  - intros ticketId text attachments s. unfold sendMessage.
    by destruct (_ || _).
Qed.

Lemma message_form_hidden_only_when_resolved_witness :
  Js.truthy "Still not working" || bool_decide (0 < length (@nil string))%nat
  = true
  ∧ sendMessage "T-2" "Still not working" [] (OkWith laterMessage) closedPage
    = (mkDetailState (Some (mkDetail closedTicket [firstMessage; laterMessage])) None,
       [PostMessage "T-2" "Still not working" []]).
Proof.
  split; [reflexivity|].
  destruct message_form_hidden_only_when_resolved as (_ & _ & Hsend & _).
  exact (Hsend "T-2" "Still not working" [] laterMessage
               (mkDetail closedTicket [firstMessage]) None eq_refl).
Defined.

(** A Closed ticket: the form is rendered and a message is accepted. *)
Lemma closed_ticket_accepts_message :
  messagesRefused closedTicket
  ∧ showsMessageForm (status closedTicket) = true
  ∧ (sendMessage (id closedTicket) "Still not working" []
                 (OkWith laterMessage) closedPage).1
    = mkDetailState (Some (mkDetail closedTicket [firstMessage; laterMessage])) None.
Proof. split_and!; [by right | reflexivity | reflexivity]. Qed.

(** C7, as the code has it. The student page renders the reopen button
    exactly for a Resolved ticket (not for a Closed one). Its handler
    sends the reopen request and then refreshes the route, unless the
    request itself throws: an answer that is not ok is followed by the
    refresh as well. It sends nothing else and does not write the page's
    ticket or conversation. The reopen route answers success for every
    ticket id, whatever the ticket's status. *)
Theorem reopen_offered_only_when_resolved :
  (∀ st, showsReopenButton st = true ↔ st = Resolved)
  ∧ List.filter showsReopenButton allStatuses = [ Resolved ]
  ∧ (∀ ticketId reply s,
       (handleReopenTicket ticketId reply s).1 = s
       ∧ (reply = Threw →
          (handleReopenTicket ticketId reply s).2 = [PostReopen ticketId])
       ∧ (reply ≠ Threw →
          (handleReopenTicket ticketId reply s).2
          = [PostReopen ticketId; RouterRefresh])
       ∧ (RouterRefresh ∈ (handleReopenTicket ticketId reply s).2
          ↔ reply ≠ Threw))
  ∧ (∀ t : TicketDetail,
       reopen_POST (id t)
       = mkResponse 200 "message" "Ticket reopened successfully"
       ∧ ok (reopen_POST (id t)) = true).
Proof.
  split_and!; try done.
  - intros st. unfold showsReopenButton. apply bool_decide_eq_true.
  - intros ticketId reply s. destruct reply as [| |u]; cbn; split_and!;
      try done.
    + split; [|done]. intros Hin.
      apply elem_of_cons in Hin as [? | Hin]; [done|].
      by apply elem_of_nil in Hin.
    + split; [done|]. intros _. right. left.
    + split; [done|]. intros _. right. left.
Qed.

(** An Open ticket: the route answers success; a Closed ticket: the
    page offers no reopen button. *)
Lemma reopen_open_ticket_succeeds :
  ok (reopen_POST (id openTicket)) = true
  ∧ ¬ reopenPermitted openTicket
  ∧ reopenPermitted closedTicket
  ∧ showsReopenButton (status closedTicket) = false.
Proof.
  split_and!; [reflexivity | | by right | reflexivity].
  intros [H | H]; discriminate.
Qed.



End TicketClaims.

(** ** The admin ticket list: tabs, stars, badges *)

Section ListProperties.
Import Tickets SupportList ListCard Badges.

Lemma inTab_resolved t :
  inTab resolved t = true ↔ t_status t = Resolved ∨ t_status t = Closed.
Proof.
  unfold inTab. rewrite orb_true_iff, !bool_decide_eq_true. tauto.
Qed.

Lemma inTab_unresolved t : inTab unresolved t = negb (inTab resolved t).
Proof. unfold inTab. by rewrite negb_orb. Qed.

Lemma elem_of_filteredTickets tab tickets t :
  t ∈ filteredTickets tab tickets ↔ t ∈ tickets ∧ inTab tab t = true.
Proof.
  unfold filteredTickets. rewrite !list_elem_of_In. apply filter_In.
Qed.

(** The two tabs of the list split the fetched tickets: a ticket is on
    the Resolved tab when its status is Resolved or Closed and on the
    Unresolved tab otherwise, never on both and never on neither; each
    tab lists its tickets in the order they were fetched, and together
    the tabs hold every ticket once. *)
Theorem tabs_split_the_tickets (tickets : list Ticket) :
  (∀ t, inTab unresolved t = negb (inTab resolved t))
  ∧ (∀ t, t ∈ filteredTickets resolved tickets
          ↔ t ∈ tickets ∧ (t_status t = Resolved ∨ t_status t = Closed))
  ∧ (∀ t, t ∈ filteredTickets unresolved tickets
          ↔ t ∈ tickets ∧ t_status t ≠ Resolved ∧ t_status t ≠ Closed)
  ∧ (∀ tab, filteredTickets tab tickets `sublist_of` tickets)
  ∧ filteredTickets resolved tickets ++ filteredTickets unresolved tickets
    ≡ₚ tickets.
Proof.
  split_and!.
  - apply inTab_unresolved.
  - intros t. by rewrite elem_of_filteredTickets, inTab_resolved.
  - intros t. rewrite elem_of_filteredTickets, inTab_unresolved.
    rewrite negb_true_iff, <- not_true_iff_false, inTab_resolved. tauto.
  - intros tab. unfold filteredTickets.
    induction tickets as [|t ts IH]; simpl; [constructor|].
    destruct (inTab tab t); by constructor.
  - unfold filteredTickets. induction tickets as [|t ts IH]; [done|].
    cbn [List.filter]. rewrite inTab_unresolved.
    destruct (inTab resolved t); cbn [negb app].
    + by f_equiv.
    + rewrite <- Permutation_middle. by f_equiv.
Qed.

Lemma stars_below r :
  r ≤ 0 → map (λ star, bool_decide (star ≤ r)) [1; 2; 3; 4; 5]
          = replicate 5 false.
Proof.
  intros Hr. simpl. by rewrite !bool_decide_eq_false_2 by lia.
Qed.

Lemma stars_above r :
  5 ≤ r → map (λ star, bool_decide (star ≤ r)) [1; 2; 3; 4; 5]
          = replicate 5 true.
Proof.
  intros Hr. simpl. by rewrite !bool_decide_eq_true_2 by lia.
Qed.

(** The rating on a ticket card. Without a rating nothing is shown; a
    rating of 0 puts the bare number on the card; any other rating [r]
    shows five stars of which the first [r], cut to the range 0 to 5,
    are filled. The [--] placeholder of [renderStars] never reaches a
    card. *)
Theorem card_rating_block (t : Ticket) :
  (t_rating t = None ↔ ratingBlock t = Nothing)
  ∧ (t_rating t = Some 0 ↔ ratingBlock t = BareNumber 0)
  ∧ (∀ r, t_rating t = Some r → r ≠ 0 →
          ratingBlock t
          = YouRated (Stars (replicate (filledStars r) true
                             ++ replicate (5 - filledStars r) false)))
  ∧ ratingBlock t ≠ YouRated NoRating.
Proof.
  unfold ratingBlock, renderStars.
  destruct (t_rating t) as [r|] eqn:Hrating; [|by split_and!].
  case_bool_decide as Hzero.
  - subst r. split_and!; try done. by intros r [= <-].
  - split_and!; try done.
    + split; [by intros [= ->] | done].
    + intros r' [= <-] _. f_equal. f_equal. unfold filledStars.
      assert (r ≤ 0 ∨ r = 1 ∨ r = 2 ∨ r = 3 ∨ r = 4 ∨ 5 ≤ r)
        as [H | [-> | [-> | [-> | [-> | H]]]]] by lia; try reflexivity.
      * rewrite stars_below by done.
        by replace (Z.min 5 (Z.max 0 r)) with 0 by lia.
      * rewrite stars_above by done.
        by replace (Z.min 5 (Z.max 0 r)) with 5 by lia.
Qed.

Lemma card_rating_block_witness :
  t_rating (mkTicket "T-9" Resolved "Login issue" (Some 4) 3) = Some 4
  ∧ 4 ≠ 0
  ∧ ratingBlock (mkTicket "T-9" Resolved "Login issue" (Some 4) 3)
    = YouRated (Stars [true; true; true; true; false]).
Proof.
  split_and!; [reflexivity | lia |].
  destruct (card_rating_block (mkTicket "T-9" Resolved "Login issue" (Some 4) 3))
    as (_ & _ & Hstars & _).
  exact (Hstars 4 eq_refl ltac:(lia)).
Defined.

(** A status badge is a colour and a text. On the admin pages the text
    alone does not tell Work in Progress from Student Action Required,
    on the student page it does not tell Work in Progress from Admin
    Action Required, and the colour alone does not tell the two
    Action-Required statuses apart; colour and text together identify
    the status on both. *)
Theorem badge_identifies_status (st1 st2 : Status) :
  (adminBadge st1 = adminBadge st2 ↔ st1 = st2)
  ∧ (studentBadge st1 = studentBadge st2 ↔ st1 = st2)
  ∧ (adminBadgeLabel (statusText st1) = adminBadgeLabel (statusText st2)
     ↔ sameOrPair WorkInProgress StudentActionRequired st1 st2)
  ∧ (studentBadgeLabel (statusText st1) = studentBadgeLabel (statusText st2)
     ↔ sameOrPair WorkInProgress AdminActionRequired st1 st2)
  ∧ (getStatusColor (statusText st1) = getStatusColor (statusText st2)
     ↔ sameOrPair StudentActionRequired AdminActionRequired st1 st2).
Proof.
  unfold sameOrPair.
  destruct st1, st2; split_and!; split; intros H;
    first [ reflexivity
          | by left | by (right; left) | by (right; right)
          | by vm_compute in H
          | by destruct H as [H | [[H1 H2] | [H1 H2]]] ].
Qed.

(** [getStatusColor] falls back to grey exactly for the strings that are
    none of its seven case labels, so never for a status of the union;
    [getMessageBackgroundColor] falls back to grey exactly for the
    strings that are none of the three roles. *)
Theorem colour_default_only_for_unknown :
  (∀ status, getStatusColor status = defaultStatusColor
             ↔ status ∉ colouredStatuses)
  ∧ (∀ st, getStatusColor (statusText st) ≠ defaultStatusColor)
  ∧ (∀ role, getMessageBackgroundColor role = defaultMessageColor
             ↔ role ∉ [ "student"; "admin"; "agent" ])
  ∧ (∀ r, getMessageBackgroundColor (roleText r) ≠ defaultMessageColor).
Proof.
  split_and!.
  - intros status. unfold getStatusColor, colouredStatuses.
    rewrite !not_elem_of_cons.
    repeat (case_bool_decide; [subst; split; [discriminate | tauto] |]).
    simpl. split; [|done]. intros _. split_and!; try done. apply not_elem_of_nil.
  - intros st. by destruct st.
  - intros role. unfold getMessageBackgroundColor.
    rewrite !not_elem_of_cons.
    repeat (case_bool_decide; [subst; split; [discriminate | tauto] |]).
    split; [|done]. intros _. split_and!; try done. apply not_elem_of_nil.
  - intros r. by destruct r.
Qed.

End ListProperties.

(** ** The conversation view: resolved badge and sender names *)

Section ConversationProperties.
Import Stdlib.Strings.Ascii.
Import Tickets DetailPage Conversation.

Lemma resolvedBadges_lookup t i :
  resolvedBadges t !! i = Some true
  ↔ ∃ m, conversations t !! i = Some m ∧ resolvedBadge t i m = true.
Proof.
  unfold resolvedBadges. rewrite list_lookup_imap.
  destruct (conversations t !! i) as [m|]; simpl.
  - split.
    + intros Hb. exists m. split; [done|]. congruence.
    + intros (m' & Hm & Hb). injection Hm as <-. by rewrite Hb.
  - split; [done | by intros (m' & Hm & _)].
Qed.

(** The "TICKET RESOLVED" badge is shown under a message exactly when
    the ticket is Resolved and that message is the last one of the
    conversation and was sent by an admin. So a conversation carries the
    badge at most once, and never when the ticket is not Resolved or the
    last message is not an admin's. *)
Theorem resolved_badge_on_last_admin_message (t : TicketDetailResponse) :
  (∀ i, resolvedBadges t !! i = Some true
        ↔ status (ticket t) = Resolved
          ∧ S i = length (conversations t)
          ∧ ∃ m, last (conversations t) = Some m ∧ sender_role m = admin)
  ∧ (∀ i j, resolvedBadges t !! i = Some true →
            resolvedBadges t !! j = Some true → i = j)
  ∧ length (resolvedBadges t) = length (conversations t).
Proof.
  assert (∀ i, resolvedBadges t !! i = Some true
        ↔ status (ticket t) = Resolved
          ∧ S i = length (conversations t)
          ∧ ∃ m, last (conversations t) = Some m ∧ sender_role m = admin)
    as Hiff.
  { intros i. rewrite resolvedBadges_lookup. unfold resolvedBadge. split.
    - intros (m & Hm & Hb).
      rewrite !andb_true_iff, !bool_decide_eq_true in Hb.
      destruct Hb as [[Hrole Hst] Hidx].
      assert (S i = length (conversations t)) as Hlen by lia.
      split_and!; [done | done |]. exists m. split; [|done].
      rewrite last_lookup, <- Hlen. exact Hm.
    - intros (Hst & Hlen & m & Hlast & Hrole). exists m.
      rewrite last_lookup, <- Hlen in Hlast. split; [exact Hlast|].
      rewrite !andb_true_iff, !bool_decide_eq_true. split_and!; [done | done | lia]. }
  split_and!; [exact Hiff | | apply length_imap].
  intros i j Hi Hj. apply Hiff in Hi as (_ & Hi & _).
  apply Hiff in Hj as (_ & Hj & _). lia.
Qed.

Lemma resolved_badge_on_last_admin_message_witness :
  resolvedBadges
    (mkDetail (mkTicketDetail "T-3" Resolved "Quiz score" None)
       [ mkMessage "m-1" "T-3" student "My score is missing" "2025-01-01T10:00:00";
         mkMessage "m-2" "T-3" admin "Fixed now" "2025-01-01T11:00:00" ]) !! 1%nat
  = Some true
  ∧ status (mkTicketDetail "T-3" Resolved "Quiz score" None) = Resolved.
Proof.
  split; [reflexivity|].
  destruct (resolved_badge_on_last_admin_message
    (mkDetail (mkTicketDetail "T-3" Resolved "Quiz score" None)
       [ mkMessage "m-1" "T-3" student "My score is missing" "2025-01-01T10:00:00";
         mkMessage "m-2" "T-3" admin "Fixed now" "2025-01-01T11:00:00" ]))
    as (Hiff & _).
  exact (proj1 (proj1 (Hiff 1%nat) eq_refl)).
Defined.










End ConversationProperties.

(** ** The message editor: formatting buttons *)

Section EditorProperties.
Import Stdlib.Strings.Ascii.
Import Editor.




End EditorProperties.

(** ** The detail pages: resolving, and what a session can change *)

Section DetailProperties.
Import Tickets DetailPage AdminDetail DetailSession.


Lemma step_keeps_ticket ticketId e s :
  let s' := step ticketId e s in
  shownConversation s `prefix_of` shownConversation s'
  ∧ (length (shownConversation s') ≤ S (length (shownConversation s)))%nat
  ∧ (ticket <$> page_ticket s') = (ticket <$> page_ticket s).
Proof.
  cbv zeta. destruct e as [r | reply | text attachments reply];
    unfold step, shownConversation.
  - cbn. split_and!; [done | lia | done].
  - unfold handleReopenTicket. destruct reply; cbn; split_and!; done || lia.
  - unfold sendMessage. destruct (_ || _); [|cbn; split_and!; done || lia].
    destruct reply as [| |m]; cbn [fst]; [split_and!; done || lia .. |].
    cbn [page_ticket]. destruct (page_ticket s) as [t|]; cbn.
    + split_and!; [by apply prefix_app_r | rewrite length_app; simpl; lia | done].
    + split_and!; done || lia.
Qed.

(** Whatever the student does on the detail page (rating, reopening,
    sending messages, with any outcome of the requests), the page never
    changes the ticket it shows (status, rating, id and title stay as
    fetched), never removes or reorders a message, and adds at most one
    message per action: the conversation fetched is a prefix of the
    conversation shown. *)
Theorem session_keeps_ticket_and_appends
    (ticketId : string) (es : list DetailEvent) (s : DetailState) :
  let s' := runDetail ticketId es s in
  shownConversation s `prefix_of` shownConversation s'
  ∧ (length (shownConversation s')
     ≤ length (shownConversation s) + length es)%nat
  ∧ (ticket <$> page_ticket s') = (ticket <$> page_ticket s).
Proof.
  cbv zeta. unfold runDetail. revert s.
  induction es as [|e es IH]; intros s; cbn [foldl length].
  - split_and!; [done | lia | done].
  - destruct (IH (step ticketId e s)) as (Hpre & Hlen & Hticket).
    destruct (step_keeps_ticket ticketId e s) as (Hpre1 & Hlen1 & Hticket1).
    split_and!.
    + by etrans.
    + lia.
    + by rewrite Hticket.
Qed.

End DetailProperties.

(** ** The documents page: what every session keeps *)

Section TaggingProperties.
Import Documents Tagging.
Implicit Types (s : PageState) (c p name : string).

Lemma noEmptyCategory_holds : noEmptyCategory = true.
Proof. vm_compute. reflexivity. Qed.

Lemma key_has_course c : c ∈ categoryKeys → ∃ name, name ∈ coursesOf c.
Proof.
  unfold categoryKeys. intros Hc.
  apply list_elem_of_fmap in Hc as ([k cs] & -> & Hin). simpl.
  pose proof noEmptyCategory_holds as Hall. unfold noEmptyCategory in Hall.
  rewrite forallb_forall in Hall.
  pose proof (Hall (k, cs) (proj1 (list_elem_of_In _ _) Hin)) as Hne.
  simpl in Hne. apply negb_true_iff, bool_decide_eq_false in Hne.
  unfold coursesOf.
  rewrite (lookupEntry_complete _ _ _ categoryKeys_NoDup Hin). simpl.
  destruct cs as [|name cs]; [done|]. exists name. left.
Qed.

Lemma upload_outcome file reply s :
  let s' := (handleUpload file reply s).1 in
  (selectedCategory s' = selectedCategory s
   ∧ selectedCourseCategories s' = selectedCourseCategories s
   ∧ selectedCourseNames s' = selectedCourseNames s)
  ∨ (selectedCategory s' = ""
     ∧ selectedCourseCategories s' = [] ∧ selectedCourseNames s' = []).
Proof.
  unfold handleUpload. destruct file as [f|]; [|by left].
  destruct (_ || _); [by left|].
  destruct reply as [msg | detail | listed]; simpl; auto.
Qed.

Lemma event_keeps_covered e s :
  parentsSelected s → categoriesCovered s → offered e s = true →
  categoriesCovered (dispatch e s).
Proof.
  intros Hinv Hcov Hoff.
  destruct e as [v | c | name | file reply]; cbn [dispatch offered] in *.
  - exact Hcov.
  - apply includes_true in Hoff.
    destruct (decide (c ∈ selectedCourseCategories s)) as [Hc|Hc].
    + rewrite (category_toggle_off _ _ Hc). intros q. simpl. intros Hq.
      apply list_elem_of_filter in Hq as [Hne Hq].
      destruct (Hcov q Hq) as (m & Hm & Hmq). exists m. split; [|done].
      apply list_elem_of_filter. split; [|done]. intros Hmc.
      apply coursesOf_parent in Hmc, Hmq. congruence.
    + rewrite (category_toggle_on _ _ Hc). intros q. simpl. intros Hq.
      unfold Js.spreadSet.
      apply elem_of_app in Hq as [Hq | Hq].
      * destruct (Hcov q Hq) as (m & Hm & Hmq). exists m. split; [|done].
        apply elem_of_setAddAll. right. apply elem_of_app. by left.
      * apply list_elem_of_singleton in Hq as ->.
        destruct (key_has_course c Hoff) as (m & Hm). exists m. split; [|done].
        apply elem_of_setAddAll. right. apply elem_of_app. by right.
  - destruct (decide (name ∈ selectedCourseNames s)) as [Hn|Hn].
    + destruct (Hinv name Hn) as (p & Hp & _).
      rewrite (name_toggle_off _ _ _ Hn Hp). intros q. simpl.
      destruct (Js.some _ _) eqn:Hsome.
      * intros Hq. destruct (Hcov q Hq) as (m & Hm & Hmq).
        destruct (decide (m = name)) as [-> | Hne].
        -- apply coursesOf_parent in Hmq.
           assert (q = p) as -> by congruence.
           apply some_true in Hsome as (m' & Hm' & Hsel).
           apply includes_true in Hsel. eauto.
        -- exists m. split; [|done]. by apply list_elem_of_filter.
      * intros Hq. apply list_elem_of_filter in Hq as [Hne Hq].
        destruct (Hcov q Hq) as (m & Hm & Hmq). exists m. split; [|done].
        apply list_elem_of_filter. split; [|done]. intros ->.
        apply coursesOf_parent in Hmq. congruence.
    + rewrite (name_toggle_on _ _ Hn). intros q. simpl. intros Hq.
      destruct (Hcov q Hq) as (m & Hm & Hmq). exists m. split; [|done].
      apply elem_of_app. by left.
  - intros q.
    destruct (upload_outcome file reply s) as [(_ & Hc & Hn) | (_ & Hc & _)];
      simpl in *; rewrite Hc; [rewrite Hn; apply Hcov|].
    intros Hq. by apply elem_of_nil in Hq.
Qed.

Lemma name_toggle_categories name s :
  selectedCourseCategories (handleCourseNameToggle name s)
  = selectedCourseCategories s
  ∨ ∃ p, selectedCourseCategories (handleCourseNameToggle name s)
         = filter (λ cat, cat ≠ p) (selectedCourseCategories s).
Proof.
  unfold handleCourseNameToggle. cbn [selectedCourseCategories withSelection].
  destruct (Js.includes _ _); [|by left].
  destruct (parentCategoryOf name) as [p|]; [|by left].
  destruct (Js.truthy _); [|by left].
  destruct (negb _); [right; by exists p | by left].
Qed.

Lemma event_keeps_categories e s :
  NoDup (selectedCourseCategories s) →
  (∀ c, c ∈ selectedCourseCategories s → c ∈ categoryKeys) →
  selectedCategory s ∈ "" :: guideCategories →
  offered e s = true →
  let s' := dispatch e s in
  NoDup (selectedCourseCategories s')
  ∧ (∀ c, c ∈ selectedCourseCategories s' → c ∈ categoryKeys)
  ∧ selectedCategory s' ∈ "" :: guideCategories.
Proof.
  intros Hnd Hkeys Htop Hoff. cbv zeta.
  destruct e as [v | c | name | file reply]; cbn [dispatch offered] in *.
  - split_and!; [done | done |]. right. by apply includes_true.
  - apply includes_true in Hoff.
    destruct (decide (c ∈ selectedCourseCategories s)) as [Hc|Hc].
    + rewrite (category_toggle_off _ _ Hc). simpl.
      split_and!; [by apply NoDup_filter | | done].
      intros q Hq. apply list_elem_of_filter in Hq as [_ Hq]. auto.
    + rewrite (category_toggle_on _ _ Hc). simpl. split_and!; [| | done].
      * apply NoDup_app. split_and!; [done | | apply NoDup_singleton].
        intros x Hx Hxc. apply list_elem_of_singleton in Hxc. by subst.
      * intros q Hq. apply elem_of_app in Hq as [Hq | Hq]; [auto|].
        by apply list_elem_of_singleton in Hq as ->.
  - destruct (name_toggle_categories name s) as [Hcats | (p & Hcats)];
      rewrite Hcats; (split_and!; [| | done]).
    + done.
    + done.
    + by apply NoDup_filter.
    + intros q Hq. apply list_elem_of_filter in Hq as [_ Hq]. auto.
  - destruct (upload_outcome file reply s) as [(Ht & Hc & _) | (Ht & Hc & _)];
      simpl in *; rewrite Hc, Ht.
    + done.
    + split_and!; [apply NoDup_nil_2 | | left].
      intros q Hq. by apply elem_of_nil in Hq.
Qed.

Lemma event_keeps_wellTagged e s :
  wellTagged s → offered e s = true → wellTagged (dispatch e s).
Proof.
  intros (Hinv & Hcov & Hndc & Hndn & Hkeys & Htop) Hoff.
  destruct (event_keeps_categories e s Hndc Hkeys Htop Hoff) as (H1 & H2 & H3).
  split_and!; try done.
  - by apply event_keeps_parents.
  - by apply event_keeps_covered.
  - by apply event_keeps_NoDup.
Qed.

Lemma run_keeps_wellTagged es : ∀ s s',
  wellTagged s → run es s = Some s' → wellTagged s'.
Proof.
  induction es as [|e es IH]; simpl; intros s s' Hwt Hrun.
  - by injection Hrun as <-.
  - destruct (offered e s) eqn:Hoff; [|done].
    eapply IH; [|exact Hrun]. by apply event_keeps_wellTagged.
Qed.

Lemma initial_wellTagged : wellTagged initialPage.
Proof.
  split_and!; try apply NoDup_nil_2; try (intros x Hx; by apply elem_of_nil in Hx).
  left.
Qed.

Lemma selected_are_available s name :
  parentsSelected s → name ∈ selectedCourseNames s →
  name ∈ availableCoursesForSelection s.
Proof.
  intros Hinv Hname. destruct (Hinv name Hname) as (p & Hp & Hsel).
  apply elem_of_flatMap. exists p. split; [done|]. by apply parent_coursesOf.
Qed.

(** In every state a session on the documents page reaches, the two
    selections determine each other: a course-category is selected
    exactly when one of the selected courses is listed under it. Neither
    list holds an entry twice, every selected category is a key of the
    table, every selected course is one of the courses offered for
    selection, so the "N of M courses" line never has N above M, and no
    course is selected when no category is. *)
Theorem selections_determine_each_other (es : list Event) (s : PageState) :
  run es initialPage = Some s →
  (∀ c, c ∈ selectedCourseCategories s
        ↔ ∃ name, name ∈ selectedCourseNames s
                  ∧ parentCategoryOf name = Some c)
  ∧ NoDup (selectedCourseCategories s)
  ∧ NoDup (selectedCourseNames s)
  ∧ (∀ c, c ∈ selectedCourseCategories s → c ∈ categoryKeys)
  ∧ (∀ name, name ∈ selectedCourseNames s →
             name ∈ availableCoursesForSelection s)
  ∧ (length (selectedCourseNames s)
     ≤ length (availableCoursesForSelection s))%nat
  ∧ (selectedCourseCategories s = [] ↔ selectedCourseNames s = []).
Proof.
  intros Hrun.
  destruct (run_keeps_wellTagged es _ _ initial_wellTagged Hrun)
    as (Hinv & Hcov & Hndc & Hndn & Hkeys & _).
  split_and!; try done.
  - intros c. split.
    + intros Hc. destruct (Hcov c Hc) as (name & Hname & Hin).
      exists name. split; [done|]. by apply coursesOf_parent.
    + intros (name & Hname & Hp).
      destruct (Hinv name Hname) as (p & Hp' & Hsel). congruence.
  - intros name. by apply selected_are_available.
  - apply submseteq_length, NoDup_submseteq; [done|].
    intros name. by apply selected_are_available.
  - split; intros Hnil.
    + destruct (selectedCourseNames s) as [|name names] eqn:Hnames; [done|].
      destruct (Hinv name) as (p & _ & Hsel); [rewrite Hnames; left|].
      rewrite Hnil in Hsel. by apply elem_of_nil in Hsel.
    + destruct (selectedCourseCategories s) as [|c cats] eqn:Hcats; [done|].
      destruct (Hcov c) as (name & Hname & _); [rewrite Hcats; left|].
      rewrite Hnil in Hname. by apply elem_of_nil in Hname.
Qed.

Lemma selections_determine_each_other_witness :
  run sampleSession initialPage = Some sampleState
  ∧ NoDup (selectedCourseCategories sampleState)
  ∧ (length (selectedCourseNames sampleState)
     ≤ length (availableCoursesForSelection sampleState))%nat.
Proof.
  assert (run sampleSession initialPage = Some sampleState) as Hrun
    by (vm_compute; reflexivity).
  destruct (selections_determine_each_other sampleSession sampleState Hrun)
    as (_ & Hnd & _ & _ & _ & Hlen & _).
  split_and!; [exact Hrun | exact Hnd | exact Hlen].
Defined.

Lemma upload_request_inv file reply s f cs ccs names :
  UploadDocument f cs ccs names ∈ (handleUpload file reply s).2 →
  file = Some f
  ∧ cs = [selectedCategory s]
  ∧ ccs = selectedCourseCategories s
  ∧ names = selectedCourseNames s
  ∧ selectedCategory s ≠ ""
  ∧ selectedCourseCategories s ≠ [].
Proof.
  unfold handleUpload. destruct file as [f'|];
    [|intros H; by apply elem_of_nil in H].
  destruct (Js.truthy (selectedCategory s)) eqn:Htop;
    [|intros H; by apply elem_of_nil in H].
  cbn [negb orb]. case_bool_decide as Hlen;
    [intros H; by apply elem_of_nil in H|].
  apply truthy_true in Htop.
  assert (selectedCourseCategories s ≠ []) as Hcats
    by (intros Hnil; apply Hlen; by rewrite Hnil).
  intros Hin.
  assert (UploadDocument f cs ccs names
          = UploadDocument f' [selectedCategory s]
              (selectedCourseCategories s) (selectedCourseNames s)) as Heq.
  { destruct reply as [msg | detail | listed]; cbn [snd] in Hin;
      repeat (apply elem_of_cons in Hin as [Hin | Hin]; [done|]);
      by apply elem_of_nil in Hin. }
  injection Heq as -> -> -> ->. done.
Qed.

(** Every upload request a session on the page can send is consistently
    tagged: it carries exactly one top-level category, one of the three
    of the guide; at least one course-category, all of them keys of the
    table; at least one course; every course's parent category is among
    the course-categories, and every course-category has one of its
    courses among the courses; nothing is listed twice. *)
Theorem every_upload_sent_is_consistent
    (es : list Event) (s : PageState) (file : option string)
    (reply : UploadReply) (f : string) (cs ccs names : list string) :
  run es initialPage = Some s →
  UploadDocument f cs ccs names ∈ (handleUpload file reply s).2 →
  (∃ c, cs = [c] ∧ c ∈ guideCategories)
  ∧ ccs ≠ [] ∧ names ≠ []
  ∧ NoDup ccs ∧ NoDup names
  ∧ (∀ c, c ∈ ccs → c ∈ categoryKeys)
  ∧ (∀ name, name ∈ names →
       ∃ p, parentCategoryOf name = Some p ∧ p ∈ ccs)
  ∧ (∀ c, c ∈ ccs → ∃ name, name ∈ names ∧ name ∈ coursesOf c).
Proof.
  intros Hrun Hsent.
  destruct (run_keeps_wellTagged es _ _ initial_wellTagged Hrun)
    as (Hinv & Hcov & Hndc & Hndn & Hkeys & Htop).
  apply upload_request_inv in Hsent as (_ & -> & -> & -> & Hne & Hcats).
  split_and!; try done.
  - exists (selectedCategory s). split; [done|].
    by apply elem_of_cons in Htop as [Htop | Htop].
  - destruct (selectedCourseCategories s) as [|c cats] eqn:Hc; [done|].
    destruct (Hcov c) as (name & Hname & _); [rewrite Hc; left|].
    intros Hnil. rewrite Hnil in Hname. by apply elem_of_nil in Hname.
Qed.

Lemma every_upload_sent_is_consistent_witness :
  run sampleSession initialPage = Some sampleState
  ∧ UploadDocument "faq.pdf" [ "qa_documents" ]
      (selectedCourseCategories sampleState) (selectedCourseNames sampleState)
    ∈ (handleUpload (Some "faq.pdf") (Uploaded true) sampleState).2
  ∧ NoDup (selectedCourseNames sampleState).
Proof.
  assert (run sampleSession initialPage = Some sampleState) as Hrun
    by (vm_compute; reflexivity).
  assert (UploadDocument "faq.pdf" [ "qa_documents" ]
      (selectedCourseCategories sampleState) (selectedCourseNames sampleState)
    ∈ (handleUpload (Some "faq.pdf") (Uploaded true) sampleState).2)
    as Hsent by left.
  destruct (every_upload_sent_is_consistent sampleSession sampleState
              (Some "faq.pdf") (Uploaded true) "faq.pdf" _ _ _ Hrun Hsent)
    as (_ & _ & _ & _ & Hnd & _).
  split_and!; [exact Hrun | exact Hsent | exact Hnd].
Defined.

(** The submit button and [handleUpload] agree: with the button enabled
    and a file chosen the upload request goes out, and a request that
    goes out outside an upload in progress came from an enabled button.
    A successful upload empties the form, so the button is disabled and
    a further submit sends nothing; it fetches the list again and leaves
    an error exactly when that list request fails, and with the list
    fetched the form is back in its initial state. A failed upload
    keeps the whole selection, shows an error, fetches nothing and
    leaves the button enabled for another try. *)
Theorem upload_button_and_handler_agree
    (s : PageState) (f : string) (reply : UploadReply) :
  (uploadButtonDisabled s = false →
     head (handleUpload (Some f) reply s).2
     = Some (UploadDocument f [selectedCategory s]
               (selectedCourseCategories s) (selectedCourseNames s)))
  ∧ ((handleUpload (Some f) reply s).2 ≠ [] → uploading s = false →
     uploadButtonDisabled s = false)
  ∧ (∀ listed, uploadButtonDisabled s = false →
       let s' := (handleUpload (Some f) (Uploaded listed) s).1 in
       selectedCategory s' = ""
       ∧ selectedCourseCategories s' = []
       ∧ selectedCourseNames s' = []
       ∧ uploading s' = false
       ∧ (error s' = "" ↔ listed = true)
       ∧ (listed = false → error s' = "Error loading documents")
       ∧ (s' = initialPage ↔ listed = true)
       ∧ ListDocuments ∈ (handleUpload (Some f) (Uploaded listed) s).2
       ∧ uploadButtonDisabled s' = true
       ∧ ∀ f' reply', (handleUpload (Some f') reply' s').2 = [])
  ∧ (uploadButtonDisabled s = false →
     (∃ msg, reply = Threw msg) ∨ (∃ detail, reply = Refused detail) →
       let s' := (handleUpload (Some f) reply s).1 in
       selectedCategory s' = selectedCategory s
       ∧ selectedCourseCategories s' = selectedCourseCategories s
       ∧ selectedCourseNames s' = selectedCourseNames s
       ∧ error s' ≠ ""
       ∧ (ListDocuments ∉ (handleUpload (Some f) reply s).2)
       ∧ uploadButtonDisabled s' = false).
Proof.
  unfold uploadButtonDisabled, handleUpload.
  destruct (Js.truthy (selectedCategory s)) eqn:Htop;
    destruct (bool_decide (length (selectedCourseCategories s) = 0%nat)) eqn:Hlen;
    cbn [negb orb]; rewrite ?orb_true_r, ?orb_false_r; cbn [fst snd].
  all: split_and!; try done.
  - intros _. by destruct reply as [msg | detail | listed].
  - intros listed _. destruct listed; cbn; split_and!; try done.
    all: right; left.
  - intros Hup [(msg & ->) | (detail & ->)]; cbn [fst snd withError
      selectedCategory selectedCourseCategories selectedCourseNames error uploading];
      rewrite Htop, Hlen; split_and!; try done.
    all: intros Hin; apply elem_of_cons in Hin as [? | Hin]; [done|];
      by apply elem_of_nil in Hin.
Qed.

Lemma upload_button_and_handler_agree_witness :
  uploadButtonDisabled sampleState = false
  ∧ (handleUpload (Some "faq.pdf") (Uploaded true) sampleState).1
    = initialPage
  ∧ error (handleUpload (Some "faq.pdf") (Uploaded false) sampleState).1
    = "Error loading documents"
  ∧ (handleUpload (Some "faq.pdf") (Threw "Failed to fetch") sampleState).2 ≠ []
  ∧ uploading sampleState = false
  ∧ error (handleUpload (Some "faq.pdf") (Threw "Failed to fetch") sampleState).1
    ≠ "".
Proof.
  assert (uploadButtonDisabled sampleState = false) as Hon by reflexivity.
  destruct (upload_button_and_handler_agree sampleState "faq.pdf"
              (Threw "Failed to fetch")) as (Hsend & Hback & Hok & Hfail).
  destruct (Hok true Hon) as (_ & _ & _ & _ & _ & _ & Hreset & _).
  destruct (Hok false Hon) as (_ & _ & _ & _ & _ & Hlist & _).
  destruct (Hfail Hon (or_introl (ex_intro _ "Failed to fetch" eq_refl)))
    as (_ & _ & _ & Herr & _).
  assert ((handleUpload (Some "faq.pdf") (Threw "Failed to fetch") sampleState).2
          ≠ []) as Hsent.
  { intros Hnil. specialize (Hsend Hon). rewrite Hnil in Hsend. discriminate. }
  pose proof (Hback Hsent eq_refl) as _.
  split_and!;
    [ exact Hon | exact (proj2 Hreset eq_refl) | exact (Hlist eq_refl)
    | exact Hsent | reflexivity | exact Herr ].
Defined.

(** Ticking a course that is offered and not selected, and unticking it
    again, brings the page back to the state it was in, in every state a
    session reaches. Unticking the only selected course of a category
    unselects the category, and the course is then no longer offered
    for selection. *)
Theorem course_toggle_round_trip (es : list Event) (s : PageState) (name : string) :
  run es initialPage = Some s →
  (offered (ToggleCourseName name) s = true →
   name ∉ selectedCourseNames s →
   handleCourseNameToggle name (handleCourseNameToggle name s) = s)
  ∧ (∀ p, name ∈ selectedCourseNames s →
       parentCategoryOf name = Some p →
       lastSelectedOf p name s →
       let s' := handleCourseNameToggle name s in
       (p ∉ selectedCourseCategories s')
       ∧ (name ∉ availableCoursesForSelection s')
       ∧ offered (ToggleCourseName name) s' = false).
Proof.
  intros Hrun.
  destruct (run_keeps_wellTagged es _ _ initial_wellTagged Hrun)
    as (Hinv & Hcov & Hndc & Hndn & Hkeys & _).
  split.
  - intros Hoff Hout. cbn [offered] in Hoff.
    apply andb_true_iff in Hoff as [_ Havail]. apply includes_true in Havail.
    apply elem_of_flatMap in Havail as (p & Hp & Hin).
    pose proof (coursesOf_parent _ _ Hin) as Hparent.
    rewrite (name_toggle_on _ _ Hout).
    assert (filter (λ x, x ≠ name) (selectedCourseNames s ++ [name])
            = selectedCourseNames s) as Hback.
    { rewrite filter_app, filter_keeps_all by (intros x Hx ->; auto).
      rewrite filter_cons_False by (intros H; by apply H).
      rewrite filter_nil. apply app_nil_r. }
    rewrite (name_toggle_off name p)
      by first [ done
               | cbn [selectedCourseNames withSelection];
                 apply elem_of_app; right; left ].
    cbn [selectedCourseNames selectedCourseCategories withSelection].
    rewrite Hback.
    destruct (Hcov p Hp) as (m & Hm & Hmp).
    assert (Js.some (λ cn, Js.includes (selectedCourseNames s) cn) (coursesOf p)
            = true) as ->.
    { apply some_true. exists m. split; [done|]. by apply includes_true. }
    by destruct s.
  - intros p Hname Hparent Hlast. cbv zeta.
    rewrite (name_toggle_off _ _ _ Hname Hparent).
    rewrite (proj2 (no_other_selected_iff p name s) Hlast).
    assert (name ∉ Js.flatMap coursesOf
              (filter (λ cat, cat ≠ p) (selectedCourseCategories s))) as Hgone.
    { intros Hin. apply elem_of_flatMap in Hin as (q & Hq & Hnq).
      apply list_elem_of_filter in Hq as [Hne _].
      apply coursesOf_parent in Hnq. congruence. }
    unfold availableCoursesForSelection.
    cbn [offered selectedCourseCategories withSelection availableCoursesForSelection].
    split_and!.
    + intros Hin. by apply list_elem_of_filter in Hin as [Hne _].
    + exact Hgone.
    + apply andb_false_iff. right. by apply includes_false.
Qed.

Lemma course_toggle_round_trip_witness :
  run sampleSession initialPage = Some sampleState
  ∧ offered (ToggleCourseName "Minor in AI") sampleState = true
  ∧ ("Minor in AI" ∉ selectedCourseNames sampleState)
  ∧ handleCourseNameToggle "Minor in AI"
      (handleCourseNameToggle "Minor in AI" sampleState)
    = sampleState.
Proof.
  assert (run sampleSession initialPage = Some sampleState) as Hrun
    by (vm_compute; reflexivity).
  assert (offered (ToggleCourseName "Minor in AI") sampleState = true) as Hoff
    by (vm_compute; reflexivity).
  assert ("Minor in AI" ∉ selectedCourseNames sampleState) as Hout
    by (apply includes_false; vm_compute; reflexivity).
  destruct (course_toggle_round_trip sampleSession sampleState "Minor in AI" Hrun)
    as (Hback & _).
  split_and!; [exact Hrun | exact Hoff | exact Hout | exact (Hback Hoff Hout)].
Defined.

End TaggingProperties.

(** ** The documents page: the list of documents *)

Section DocumentListProperties.
Import Documents DocumentList.

(** Deleting a document. Without the confirmation nothing is sent and
    nothing changes. With it the delete request goes out, and when all
    requests have settled the page is never left loading (so the Delete
    buttons are enabled again). The page never edits its list itself:
    the list changes only when the delete succeeded and the list was
    fetched again, and then it is the fetched list, empty when the
    answer holds no array. An error is shown exactly when the delete or
    the fetch after it failed. The tagging form is not touched. *)
Theorem delete_settles_and_refetches
    (docId : string) (confirmed : bool) (reply : DeleteReply)
    (listReply : ListReply) (s : ListState) :
  let s' := (handleDelete docId confirmed reply listReply s).1 in
  let sent := (handleDelete docId confirmed reply listReply s).2 in
  (confirmed = false → s' = s ∧ sent = [])
  ∧ (confirmed = true →
       isLoading s' = false
       ∧ head sent = Some (DeleteDocument docId)
       ∧ (FetchDocuments ∈ sent ↔ reply = DeleteDone)
       ∧ (error (form s') = ""
          ↔ reply = DeleteDone ∧ ∃ listed, listReply = ListBody listed))
  ∧ (documents s' ≠ documents s →
       confirmed = true ∧ reply = DeleteDone
       ∧ ∃ listed, listReply = ListBody listed
                   ∧ documents s' = default [] listed)
  ∧ selectedCategory (form s') = selectedCategory (form s)
  ∧ selectedCourseCategories (form s') = selectedCourseCategories (form s)
  ∧ selectedCourseNames (form s') = selectedCourseNames (form s)
  ∧ uploading (form s') = uploading (form s).
Proof.
  cbv zeta. unfold handleDelete, fetchDocuments.
  destruct confirmed; cbn [negb]; [|by split_and!].
  destruct reply, listReply as [| |listed]; cbn; split_and!; try done;
    try (intros _; split_and!; try done).
  all: try (split; [intros Hin | done];
            repeat (apply elem_of_cons in Hin as [Hin | Hin]; [done|]);
            by apply elem_of_nil in Hin).
  all: try (split; [done | by intros [_ (listed' & ?)]]).
  all: try (split; [done | by intros [? _]]).
  all: try (split; [done | intros _; by (right; left)]).
  all: try (split; [intros _; split; [done | by eexists] | done]).
  by eexists.
Qed.

Lemma delete_settles_and_refetches_witness :
  let s := mkList initialPage
             [ mkDocument "1" "doc-1" "faq.pdf" "2025-01-01"
                 (Some "qa_documents") None None ] false in
  true = true
  ∧ isLoading (handleDelete "doc-1" true DeleteDone (ListBody (Some [])) s).1
    = false
  ∧ documents (handleDelete "doc-1" true DeleteDone (ListBody (Some [])) s).1
    = [].
Proof.
  cbv zeta. split; [reflexivity|].
  destruct (delete_settles_and_refetches "doc-1" true DeleteDone
    (ListBody (Some []))
    (mkList initialPage
       [ mkDocument "1" "doc-1" "faq.pdf" "2025-01-01"
           (Some "qa_documents") None None ] false)) as (_ & Hyes & _).
  destruct (Hyes eq_refl) as (Hload & _).
  split; [exact Hload | reflexivity].
Defined.

Lemma findLabel_unknown guides c :
  c ∉ map fst guides → findLabel guides c = None.
Proof.
  induction guides as [|[k l] rest IH]; simpl; [done|].
  intros Hc. apply not_elem_of_cons in Hc as [Hne Hc].
  rewrite bool_decide_eq_false_2 by done. auto.
Qed.

(** The category shown on a document's line. A document without a
    category, or with an empty one, shows none. A category of the
    guide shows the guide's label. Any other category is shown as it is
    stored. The text shown is never empty, and the categories the
    upload form can send are exactly those of the guide. *)
Theorem category_text_falls_back_to_raw (doc : DocumentRecord) :
  (categoryText doc = None ↔ category doc = None ∨ category doc = Some "")
  ∧ (∀ c, category doc = Some c → c ∈ guideCategories →
          ∃ label, (c, label) ∈ categoryGuides
                   ∧ categoryText doc = Some label)
  ∧ (∀ c, category doc = Some c → c ≠ "" → c ∉ guideCategories →
          categoryText doc = Some c)
  ∧ (∀ text, categoryText doc = Some text → text ≠ "")
  ∧ map fst categoryGuides = guideCategories.
Proof.
  unfold categoryText.
  destruct (category doc) as [c|];
    [|split_and!; try done; split; [by left | done]].
  destruct (Js.truthy c) eqn:Hc.
  - pose proof (proj1 (truthy_true c) Hc) as Hne. split_and!; try done.
    + split; [done|]. intros [? | [= ->]]; done.
    + intros c' [= <-] Hin. unfold guideCategories in Hin.
      repeat (apply elem_of_cons in Hin as [-> | Hin];
              [eexists; split; [|reflexivity];
               unfold categoryGuides; repeat first [by left | right]|]).
      by apply elem_of_nil in Hin.
    + intros c' [= <-] _ Hout. by rewrite findLabel_unknown.
    + intros text [= <-]. repeat case_bool_decide; done.
  - assert (c = "") as ->.
    { destruct (decide (c = "")) as [|Hne]; [done|].
      apply truthy_true in Hne. congruence. }
    split_and!; try done.
    + split; [by right | done].
    + intros c [= <-] Hin. exfalso. unfold guideCategories in Hin.
      repeat (apply elem_of_cons in Hin as [? | Hin]; [done|]).
      by apply elem_of_nil in Hin.
    + by intros c [= <-] Hne.
Qed.

Lemma category_text_falls_back_to_raw_witness :
  category (mkDocument "1" "doc-1" "notes.pdf" "2025-01-01"
              (Some "legacy_documents") None None) = Some "legacy_documents"
  ∧ "legacy_documents" ≠ ""
  ∧ ("legacy_documents" ∉ guideCategories)
  ∧ categoryText (mkDocument "1" "doc-1" "notes.pdf" "2025-01-01"
                    (Some "legacy_documents") None None)
    = Some "legacy_documents".
Proof.
  assert ("legacy_documents" ∉ guideCategories) as Hout
    by (apply includes_false; vm_compute; reflexivity).
  assert ("legacy_documents" ≠ "") as Hne by discriminate.
  destruct (category_text_falls_back_to_raw
              (mkDocument "1" "doc-1" "notes.pdf" "2025-01-01"
                 (Some "legacy_documents") None None)) as (_ & _ & Hraw & _).
  split_and!; [reflexivity | exact Hne | exact Hout |].
  exact (Hraw "legacy_documents" eq_refl Hne Hout).
Defined.

End DocumentListProperties.

(** ** Signing in and out *)

Section SessionProperties.
Import Stdlib.Strings.Ascii.
Import Session.












End SessionProperties.

(** ** The mock routes *)

Section MockRouteProperties.
Import Stdlib.Strings.Ascii.
Import Routes MockRoutes.

Lemma find_mock_user e p :
  List.find (matches (Some (JString e)) (Some (JString p))) mockUsers
  = if bool_decide (p = "password") then
      if bool_decide (e = "student@masai.com")
      then Some ("student@masai.com", "password", "student")
      else if bool_decide (e = "admin@masai.com")
      then Some ("admin@masai.com", "password", "admin")
      else if bool_decide (e = "kinjal@masai.com")
      then Some ("kinjal@masai.com", "password", "student")
      else None
    else None.
Proof.
  unfold mockUsers, matches. cbn [List.find fst snd].
  repeat case_bool_decide; subst; simpl; try done.
Qed.

Lemma find_mock_user_none email password :
  (∀ e p, ¬ (email = Some (JString e) ∧ password = Some (JString p))) →
  List.find (matches email password) mockUsers = None.
Proof.
  intros Hno. unfold mockUsers, matches. cbn [List.find].
  destruct email as [[| | |e| |]|]; try done.
  destruct password as [[| | |p| |]|]; try done.
  exfalso. by apply (Hno e p).
Qed.

Local Ltac in_list :=
  solve [ repeat first [ apply list_elem_of_here | apply list_elem_of_further ] ].

(** The three ways the login route can answer. *)
Lemma login_POST_cases body :
  (∃ fields e role,
     body = Parsed (JObject fields)
     ∧ field "email" fields = Some (JString e)
     ∧ field "password" fields = Some (JString "password")
     ∧ e ∈ mockEmails
     ∧ (role = "admin" ↔ e = "admin@masai.com")
     ∧ login_POST body
       = mkAnswer 200 [ ("message", "Login successful");
                        ("role", role); ("email", e) ])
  ∨ ((body = Unparsable ∨ body = Parsed JNull)
     ∧ login_POST body = mkAnswer 500 [("error", "Internal server error")])
  ∨ ((∀ fields e,
        ¬ (body = Parsed (JObject fields)
           ∧ field "email" fields = Some (JString e)
           ∧ field "password" fields = Some (JString "password")
           ∧ e ∈ mockEmails))
     ∧ body ≠ Unparsable ∧ body ≠ Parsed JNull
     ∧ login_POST body = mkAnswer 401 [("error", "Invalid credentials")]).
Proof.
  destruct body as [|v]; [right; left; split; [by left | done]|].
  destruct v as [|b|n|str|items|fields];
    [ right; left; split; [by right | done]
    | right; right; split_and!; try done; by intros ? ? ([= ] & _) ..
    | ].
  unfold login_POST, property.
  destruct (field "email" fields) as [[| | |e| |]|] eqn:He;
    try (right; right; rewrite find_mock_user_none by (by intros ? ? [? ?]);
         split_and!; try done;
         intros ? ? ([= <-] & ? & _); congruence).
  destruct (field "password" fields) as [[| | |p| |]|] eqn:Hp;
    try (right; right; rewrite find_mock_user_none by (by intros ? ? [? ?]);
         split_and!; try done;
         intros ? ? ([= <-] & ? & ? & _); congruence).
  rewrite find_mock_user. unfold mockEmails.
  case_bool_decide as Hpw.
  - subst p.
    case_bool_decide as H1;
      [ subst e; left; exists fields, "student@masai.com", "student";
        split_and!; first [ done | in_list | by split ] |].
    case_bool_decide as H2;
      [ subst e; left; exists fields, "admin@masai.com", "admin";
        split_and!; first [ done | in_list | by split ] |].
    case_bool_decide as H3;
      [ subst e; left; exists fields, "kinjal@masai.com", "student";
        split_and!; first [ done | in_list | by split ] |].
    right; right. split_and!; try done.
    intros ? e' ([= <-] & He' & _ & Hin). rewrite He' in He.
    injection He as ->. rewrite !elem_of_cons, elem_of_nil in Hin. tauto.
  - right; right. split_and!; try done.
    intros ? ? ([= <-] & _ & Hp' & _). congruence.
Qed.

(** The mock login route. It answers 200 exactly when the body is an
    object whose [email] is the string of one of the three mock users
    and whose [password] is the string "password"; the role it returns
    is "admin" exactly for admin@masai.com. A missing or non-string
    field, or a body that is no object, gets 401, not 500; only an
    unreadable or [null] body gets 500. No answer carries a
    [session_token]. *)
Theorem login_route_answers (body : Body) :
  (answerCode (login_POST body) = 200
   ↔ ∃ fields e,
       body = Parsed (JObject fields)
       ∧ field "email" fields = Some (JString e)
       ∧ field "password" fields = Some (JString "password")
       ∧ e ∈ mockEmails)
  ∧ (answerField "role" (payload (login_POST body)) = Some "admin"
     ↔ ∃ fields,
         body = Parsed (JObject fields)
         ∧ field "email" fields = Some (JString "admin@masai.com")
         ∧ field "password" fields = Some (JString "password"))
  ∧ (answerCode (login_POST body) = 500
     ↔ body = Unparsable ∨ body = Parsed JNull)
  ∧ answerCode (login_POST body) ∈ [ 200; 401; 500 ]
  ∧ answerField "session_token" (payload (login_POST body)) = None.
Proof.
  destruct (login_POST_cases body)
    as [(fields & e & role & -> & He & Hp & Hin & Hrole & ->)
       | [(Hbody & ->) | (Hno & Hnu & Hnn & ->)]]; cbn.
  - split_and!; try done.
    + split; [intros _; by exists fields, e | done].
    + split.
      * intros [= Hr]. apply Hrole in Hr as ->. by exists fields.
      * intros (fields' & [= <-] & He' & _). rewrite He' in He.
        injection He as <-. f_equal. by apply Hrole.
    + split; [done | by intros [? | ?]].
    + in_list.
  - split_and!; try done.
    + split; [done|]. intros (? & ? & -> & _). by destruct Hbody.
    + split; [done|]. intros (? & -> & _). by destruct Hbody.
    + in_list.
  - split_and!; try done.
    + split; [done|]. intros (fields & e & H). by destruct (Hno fields e).
    + split; [done|]. intros (fields & Hb & He & Hp).
      destruct (Hno fields "admin@masai.com"). split_and!; try done.
      unfold mockEmails. in_list.
    + split; [done | by intros [? | ?]].
    + in_list.
Qed.

Lemma upper_not_lower c : isLower (Text.upper c) = false.
Proof.
  unfold Text.upper, isLower.
  destruct (bool_decide (97 ≤ nat_of_ascii c)%nat) eqn:Hlo;
    destruct (bool_decide (nat_of_ascii c ≤ 122)%nat) eqn:Hhi; cbn [andb].
  - apply bool_decide_eq_true in Hlo, Hhi.
    rewrite nat_ascii_embedding by lia.
    apply andb_false_iff. left. apply bool_decide_eq_false. lia.
  - by rewrite Hhi, andb_false_r.
  - by rewrite Hlo.
  - by rewrite Hlo.
Qed.

Lemma toUpperCase_no_lower s : hasLower (Text.toUpperCase s) = false.
Proof.
  induction s as [|c rest IH]; simpl; [done|].
  by rewrite upper_not_lower, IH.
Qed.

Lemma toUpperCase_length s :
  String.length (Text.toUpperCase s) = String.length s.
Proof. induction s as [|c rest IH]; simpl; [done|]. by rewrite IH. Qed.

Lemma substring_length_le n m s : (String.length (String.substring n m s) ≤ m)%nat.
Proof.
  revert n m. induction s as [|c rest IH]; intros n m.
  - destruct n, m; simpl; lia.
  - destruct n as [|n]; destruct m as [|m]; simpl; try lia.
    + specialize (IH 0%nat m). lia.
    + apply (IH n 0%nat).
    + apply (IH n (S m)).
Qed.

Lemma substring_short n m s :
  (String.length s ≤ n)%nat → String.substring n m s = "".
Proof.
  revert n m. induction s as [|c rest IH]; intros n m Hlen.
  - by destruct n, m.
  - destruct n as [|n]; simpl in *; [lia|]. apply IH. lia.
Qed.

(** The mock create-ticket route checks nothing: every body that parses
    to something other than [null] gets the success answer, whether or
    not it holds a category, a title or a message. The ticket id it
    returns is "TKT-" followed by at most 9 characters, none of them a
    lower-case letter; it is just "TKT-" when the random text has no
    more than two characters. The random text, a number written in base
    36, consists of ASCII characters. *)
Theorem create_route_accepts_any_body (random : string) (body : Body) :
  Text.isAscii random = true →
  (answerCode (create_POST random body) = 200
   ↔ ∃ value, body = Parsed value ∧ value ≠ JNull)
  ∧ (answerCode (create_POST random body) = 200 →
       answerField "ticket_id" (payload (create_POST random body))
       = Some (ticketIdOf random))
  ∧ (∃ tail, ticketIdOf random = "TKT-" +:+ tail
             ∧ (String.length tail ≤ 9)%nat
             ∧ hasLower tail = false)
  ∧ ((String.length random ≤ 2)%nat → ticketIdOf random = "TKT-").
Proof.
  intros _. split_and!.
  - destruct body as [|v]; cbn.
    + split; [done | by intros (? & ? & _)].
    + destruct v; cbn; (split; [intros _; by eexists | done])
                       || (split; [done | by intros (? & [= <-] & ?)]).
  - destruct body as [|v]; [done|]. by destruct v.
  - exists (Text.toUpperCase (String.substring 2 9 random)).
    split_and!; [done | | apply toUpperCase_no_lower].
    rewrite toUpperCase_length. apply substring_length_le.
  - intros Hshort. unfold ticketIdOf. by rewrite substring_short.
Qed.

Lemma create_route_accepts_any_body_witness :
  Text.isAscii "0.4fzyo82mvyr" = true
  ∧ answerCode (create_POST "0.4fzyo82mvyr" (Parsed (JObject []))) = 200
  ∧ answerField "ticket_id"
      (payload (create_POST "0.4fzyo82mvyr" (Parsed (JObject []))))
    = Some "TKT-4FZYO82MV".
Proof.
  split; [reflexivity|]. split; [reflexivity|].
  destruct (create_route_accepts_any_body "0.4fzyo82mvyr"
              (Parsed (JObject [])) eq_refl)
    as (_ & Hid & _).
  exact (Hid eq_refl).
Defined.

End MockRouteProperties.

(** ** The create-ticket page *)

Section CreateTicketProperties.
Import DetailPage CreateTicket.

Lemma perform_keeps_lists e s :
  allowed e s = true →
  category s ∈ "" :: categories →
  productType s ∈ "" :: productTypes →
  issueType s ∈ "" :: issueTypes →
  category (perform e s) ∈ "" :: categories
  ∧ productType (perform e s) ∈ "" :: productTypes
  ∧ issueType (perform e s) ∈ "" :: issueTypes.
Proof.
  intros Hallowed Hc Hp Hi.
  destruct e as [v | v | v | v | v | reply]; cbn in *; try done.
  - split_and!; [|done|done]. right. by apply includes_true.
  - apply andb_true_iff in Hallowed as [_ Hv].
    split_and!; [done| |done]. right. by apply includes_true.
  - apply andb_true_iff in Hallowed as [_ Hv].
    split_and!; [done|done|]. right. by apply includes_true.
  - by destruct reply.
Qed.

Lemma perform_product_data e s :
  allowed e s = true →
  productType (perform e s) ≠ "" ∨ issueType (perform e s) ≠ "" →
  (productType s ≠ "" ∨ issueType s ≠ "")
  ∨ category s = "Product Support".
Proof.
  intros Hallowed Hdata.
  destruct e as [v | v | v | v | v | reply]; cbn in *; try (by left).
  - apply andb_true_iff in Hallowed as [Hshow _].
    right. by apply bool_decide_eq_true in Hshow.
  - apply andb_true_iff in Hallowed as [Hshow _].
    right. by apply bool_decide_eq_true in Hshow.
  - left. by destruct reply.
Qed.

Lemma runCreate_invariant es : ∀ s s',
  runCreate es s = Some s' →
  category s ∈ "" :: categories →
  productType s ∈ "" :: productTypes →
  issueType s ∈ "" :: issueTypes →
  (category s' ∈ "" :: categories
   ∧ productType s' ∈ "" :: productTypes
   ∧ issueType s' ∈ "" :: issueTypes)
  ∧ (productType s' ≠ "" ∨ issueType s' ≠ "" →
     (productType s ≠ "" ∨ issueType s ≠ "")
     ∨ category s = "Product Support"
     ∨ PickTicketCategory "Product Support" ∈ es).
Proof.
  induction es as [|e es IH]; intros s s' Hrun Hc Hp Hi; cbn in Hrun.
  - injection Hrun as <-. split; [done|]. intros H. by left.
  - destruct (allowed e s) eqn:Hallowed; [|done].
    destruct (perform_keeps_lists e s Hallowed Hc Hp Hi) as (Hc' & Hp' & Hi').
    destruct (IH _ _ Hrun Hc' Hp' Hi') as (Hlists & Hdata).
    split; [done|]. intros Hs'.
    destruct (Hdata Hs') as [Hmid | [Hcat | Hin]].
    + destruct (perform_product_data e s Hallowed Hmid) as [? | ?]; auto.
    + destruct e as [v | v | v | v | v | reply]; cbn in Hcat;
        try (right; left; exact Hcat).
      * subst v. right; right. left.
      * right; left. by destruct reply.
    + right; right. by right.
Qed.

(** What a create request can carry. In every session on the page the
    category sent is empty or one of the listed categories, and product
    and issue type are empty or one of the listed values. Product data
    is sent only if "Product Support" was chosen at some point of the
    session, but it need not be the category at the time of submitting:
    changing the category hides the product fields and keeps their
    values, which are still sent. The page moves on to the ticket list
    exactly when the answer is ok, and is never left submitting. *)
Theorem create_request_fields
    (es : list CreateEvent) (s : CreateState) (reply : Reply unit) :
  runCreate es initialCreate = Some s →
  let body := mkPayload (category s) (title s) (message s)
                        (productType s) (issueType s) in
  head (handleSubmit reply s).2 = Some (PostCreate body)
  ∧ p_category body ∈ "" :: categories
  ∧ product_type body ∈ "" :: productTypes
  ∧ issue_type body ∈ "" :: issueTypes
  ∧ (product_type body ≠ "" ∨ issue_type body ≠ "" →
     PickTicketCategory "Product Support" ∈ es)
  ∧ (PushSupport ∈ (handleSubmit reply s).2 ↔ ∃ u, reply = OkWith u)
  ∧ isSubmitting (handleSubmit reply s).1 = false
  ∧ (∃ s', runCreate staleSession initialCreate = Some s'
           ∧ showProductFields s' = false
           ∧ product_type (mkPayload (category s') (title s') (message s')
                             (productType s') (issueType s')) = "Zoom").
Proof.
  intros Hrun. cbv zeta. cbn [p_category product_type issue_type].
  destruct (runCreate_invariant es initialCreate s Hrun)
    as ((Hc & Hp & Hi) & Hdata); try by left.
  split_and!; try done.
  - by destruct reply.
  - intros Hs. destruct (Hdata Hs) as [[? | ?] | [? | ?]]; done.
  - destruct reply as [| |u]; cbn; split.
    + intros Hin. apply elem_of_cons in Hin as [? | Hin]; [done|].
      by apply elem_of_nil in Hin.
    + by intros (u & ?).
    + intros Hin. apply elem_of_cons in Hin as [? | Hin]; [done|].
      by apply elem_of_nil in Hin.
    + by intros (u & ?).
    + intros _. by exists u.
    + intros _. right. left.
  - by destruct reply.
  - eexists. split; [reflexivity|]. by split.
Qed.

Lemma create_request_fields_witness :
  runCreate staleSession initialCreate
  = Some (mkCreate "Leave" "Class link" "It does not open."
                   "Zoom" "Links" false)
  ∧ PickTicketCategory "Product Support" ∈ staleSession.
Proof.
  assert (runCreate staleSession initialCreate
          = Some (mkCreate "Leave" "Class link" "It does not open."
                   "Zoom" "Links" false)) as Hrun
    by reflexivity.
  split; [exact Hrun|].
  destruct (create_request_fields staleSession _ Threw Hrun)
    as (_ & _ & _ & _ & Hdata & _).
  apply Hdata. left. discriminate.
Defined.

End CreateTicketProperties.
